(** * Metric normalisation of the mtail input and fan-out of the github input

    A shallow embedding of [inputs/mtail/mtail.go] and of the [github]
    package that follows it in the same source file.  Go maps that the code
    passes by reference live in an explicit heap; panics are an explicit
    outcome; the goroutines of the github input are threads of a small-step
    machine. *)

From Stdlib Require Import ZArith String Ascii Floats Lia List.
From stdpp Require Import base option list gmap strings.

Set Default Proof Using "Type".
Local Open Scope Z_scope.

(** ** Go primitives used by both packages *)

Module Go.

(** The result of running Go code that may panic. *)
Inductive outcome (A : Type) : Type :=
| Done (a : A)
| Panic.
Arguments Done {A} a.
Arguments Panic {A}.

Definition bind {A B} (x : outcome A) (f : A -> outcome B) : outcome B :=
  match x with
  | Done a => f a
  | Panic => Panic
  end.

(** A value of type [interface{}]; only [float64] and [int] values are
    stored in one by this code. *)
Inductive iface : Type :=
| Float64 (f : float)
| Int (n : Z).

(** [strings.HasPrefix(s, prefix)]. *)
Definition HasPrefix (s prefix : string) : bool := String.prefix prefix s.

(** [math.IsNaN(f)], which is [f != f]. *)
Definition IsNaN (f : float) : bool := negb (PrimFloat.eqb f f).

(** The conversion [float64(n)] of a [uint64], rounding to nearest even.
    Above 2^63 the value is halved with a sticky low bit, converted and
    doubled, which rounds the same way. *)
Definition float64_of_uint64 (n : Z) : float :=
  if n <? 2 ^ 63 then PrimFloat.of_uint63 (Uint63.of_Z n)
  else PrimFloat.mul
         (PrimFloat.of_uint63 (Uint63.of_Z (Z.lor (Z.shiftr n 1) (Z.land n 1))))
         2%float.

(** [len(s)]: the number of bytes of a string. *)
Definition len (s : string) : Z := Z.of_nat (String.length s).

(** The slice expression [s[lo:hi]]; it panics unless
    [0 <= lo <= hi <= len(s)]. *)
Definition slice (s : string) (lo hi : Z) : outcome string :=
  if (0 <=? lo) && (lo <=? hi) && (hi <=? len s)
  then Done (String.substring (Z.to_nat lo) (Z.to_nat (hi - lo)) s)
  else Panic.

(** [strings.SplitN(s, sep, n)] for a non-empty separator and [n >= 0]:
    at most [n] pieces, the last one holding the unsplit remainder. *)
Fixpoint SplitN (s sep : string) (n : nat) : list string :=
  match n with
  | O => []
  | S O => [s]
  | S n' =>
      match String.index 0 sep s with
      | None => [s]
      | Some m =>
          String.substring 0 m s
          :: SplitN (String.substring (m + String.length sep)
                       (String.length s - (m + String.length sep)) s) sep n'
      end
  end.

End Go.

Import Go.

(** ** The Prometheus data model ([client_model/go], package [dto]) *)

Module dto.

(** [MetricType] is an [int32] enumeration. *)
Definition MetricType := Z.
Definition MetricType_COUNTER : MetricType := 0.
Definition MetricType_GAUGE : MetricType := 1.
Definition MetricType_SUMMARY : MetricType := 2.
Definition MetricType_UNTYPED : MetricType := 3.
Definition MetricType_HISTOGRAM : MetricType := 4.

(** Records carry what the getters return. *)
Record Quantile : Type := {
  GetQuantile : float;
  Quantile_GetValue : float
}.

Record Bucket : Type := {
  GetCumulativeCount : Z;
  GetUpperBound : float
}.

Record Summary : Type := {
  Summary_SampleCount : Z;
  Summary_SampleSum : float;
  Summary_Quantile : list Quantile
}.

Record Histogram : Type := {
  Histogram_SampleCount : Z;
  Histogram_SampleSum : float;
  Histogram_Bucket : list Bucket
}.

(** A [*dto.Metric]: each payload is a pointer that may be nil.  For the
    single-value payloads [Some v] is a non-nil payload whose [GetValue()]
    is [v]. *)
Record Metric : Type := {
  Label : list (string * string);
  Gauge : option float;
  Counter : option float;
  Summary_ : option Summary;
  Untyped : option float;
  Histogram_ : option Histogram
}.

Record MetricFamily : Type := {
  GetName : string;
  GetType : MetricType;
  Metric_ : list Metric
}.

(** Getters are nil-safe and return the zero value on a nil receiver. *)
Definition Summary_GetSampleCount (s : option Summary) : Z :=
  match s with Some s => Summary_SampleCount s | None => 0 end.
Definition Summary_GetSampleSum (s : option Summary) : float :=
  match s with Some s => Summary_SampleSum s | None => 0%float end.
Definition Histogram_GetSampleCount (h : option Histogram) : Z :=
  match h with Some h => Histogram_SampleCount h | None => 0 end.
Definition Histogram_GetSampleSum (h : option Histogram) : float :=
  match h with Some h => Histogram_SampleSum h | None => 0%float end.

End dto.

(** ** Samples and the output sink (package [types]) *)

Module types.

(** Modelled from the spec: the [Sample] type of package [types] is not
    part of the source file.  A sample is the canonical output unit: a
    name, a value and a tag map.  The record keeps the two name arguments
    of the constructor as they were passed. *)
Record Sample : Type := {
  Prefix : string;
  Metric : string;
  Value : iface;
  Labels : gmap string string
}.

(** Modelled from the spec: [types.NewSample] is not part of the source
    file.  Tag composition is a layered overwrite: a later tag map
    overwrites the keys of an earlier one. *)
Definition NewSample (prefix metric : string) (value : iface)
    (labels : list (gmap string string)) : Sample :=
  {| Prefix := prefix;
     Metric := metric;
     Value := value;
     Labels := foldl (fun acc layer => layer ∪ acc) ∅ labels |}.

(** Modelled from the spec: [types.SampleList] is not part of the source
    file.  It is an append-only sink; the newest sample is at the front. *)
Definition SampleList := list Sample.

Definition PushFront (v : Sample) (l : SampleList) : SampleList := v :: l.

(** The samples of a sink in the order in which they were emitted. *)
Definition emitted (l : SampleList) : list Sample := rev l.

End types.

(** ** Name composition (package [prom]) *)

Module prom.

(** Modelled from the spec: [prom.BuildMetric] is not part of the source
    file.  The result is the prefix followed by the name; a suffix, when
    one is present, follows after a literal underscore.  An empty suffix
    counts as absent. *)
Definition BuildMetric (names : list string) : string :=
  match names with
  | prefix :: name :: rest =>
      prefix +:+ name +:+
      match rest with
      | suffix :: _ => if decide (suffix = "") then "" else "_" +:+ suffix
      | [] => ""
      end
  | _ => String.concat "" names
  end.

End prom.

(** ** Package [mtail] *)

Module Mtail.

Import dto types prom.

(** A Go map of type [map[string]string] is a reference into the heap. *)
Abbreviation loc := positive.
Abbreviation heap := (gmap positive (gmap string string)).

(** Reading a map variable; a nil map reads as the empty map. *)
Definition deref (h : heap) (l : loc) : gmap string string := h !!! l.

(** Reading a map field that may hold nil. *)
Definition deref_nilable (h : heap) (l : option loc) : gmap string string :=
  match l with
  | Some l => deref h l
  | None => ∅
  end.

(** The assignment [m[key] = value] on the map at [l]. *)
Definition store (l : loc) (key value : string) (h : heap) : heap :=
  <[l := <[key := value]> (deref h l)]> h.

(** The fields of [Instance] that [Gather] and its helpers read; [Labels]
    comes from the embedded [config.InstanceConfig] and is nil when no
    label is configured. *)
Record Instance : Type := {
  Labels : option loc;
  NamePrefix : string
}.

Section Strategies.

(** [fmt.Sprint] on a [float64]. *)
Variable fmt_Sprint : float -> string.

Definition makeLabels (p : Instance) (m : dto.Metric) (h : heap) : loc * heap :=
  let result := fresh (dom h) in
  let h := <[result := ∅]> h in
  (result,
   map_fold (fun key value h => store result key value h) h
     (deref_nilable h (Labels p))).

Definition HandleSummary (p : Instance) (m : dto.Metric) (tags : loc)
    (metricName : string) (h : heap) (slist : SampleList) : outcome SampleList :=
  let namePrefix :=
    if negb (HasPrefix metricName (NamePrefix p)) then NamePrefix p else "" in
  let slist :=
    PushFront (NewSample "" (BuildMetric [namePrefix; metricName; "count"])
                 (Float64 (float64_of_uint64 (Summary_GetSampleCount (Summary_ m))))
                 [deref h tags]) slist in
  let slist :=
    PushFront (NewSample "" (BuildMetric [namePrefix; metricName; "sum"])
                 (Float64 (Summary_GetSampleSum (Summary_ m)))
                 [deref h tags]) slist in
  match Summary_ m with
  | None => Panic
  | Some s =>
      Done (foldl (fun slist q =>
                     PushFront (NewSample "" (BuildMetric [namePrefix; metricName])
                                  (Float64 (Quantile_GetValue q))
                                  [deref h tags;
                                   {[ "quantile" := fmt_Sprint (GetQuantile q) ]}])
                       slist)
              slist (Summary_Quantile s))
  end.

Definition HandleHistogram (p : Instance) (m : dto.Metric) (tags : loc)
    (metricName : string) (h : heap) (slist : SampleList) : outcome SampleList :=
  let namePrefix :=
    if negb (HasPrefix metricName (NamePrefix p)) then NamePrefix p else "" in
  let slist :=
    PushFront (NewSample "" (BuildMetric [namePrefix; metricName; "count"])
                 (Float64 (float64_of_uint64 (Histogram_GetSampleCount (Histogram_ m))))
                 [deref h tags]) slist in
  let slist :=
    PushFront (NewSample "" (BuildMetric [namePrefix; metricName; "sum"])
                 (Float64 (Histogram_GetSampleSum (Histogram_ m)))
                 [deref h tags]) slist in
  let slist :=
    PushFront (NewSample "" (BuildMetric [namePrefix; metricName; "bucket"])
                 (Float64 (float64_of_uint64 (Histogram_GetSampleCount (Histogram_ m))))
                 [deref h tags; {[ "le" := "+Inf" ]}]) slist in
  match Histogram_ m with
  | None => Panic
  | Some hist =>
      Done (foldl (fun slist b =>
                     let le := fmt_Sprint (GetUpperBound b) in
                     let value := float64_of_uint64 (GetCumulativeCount b) in
                     PushFront (NewSample "" (BuildMetric [namePrefix; metricName; "bucket"])
                                  (Float64 value)
                                  [deref h tags; {[ "le" := le ]}])
                       slist)
              slist (Histogram_Bucket hist))
  end.

Definition getNameAndValue (m : dto.Metric) (metricName : string) : gmap string iface :=
  let fields : gmap string iface := ∅ in
  match Gauge m with
  | Some v => if negb (IsNaN v) then <[metricName := Float64 v]> fields else fields
  | None =>
      match Counter m with
      | Some v => if negb (IsNaN v) then <[metricName := Float64 v]> fields else fields
      | None =>
          match Untyped m with
          | Some v => if negb (IsNaN v) then <[metricName := Float64 v]> fields else fields
          | None => fields
          end
      end
  end.

Definition handleGaugeCounter (p : Instance) (m : dto.Metric) (tags : loc)
    (metricName : string) (h : heap) (slist : SampleList) : SampleList :=
  let fields := getNameAndValue m metricName in
  foldl (fun slist '(metric, value) =>
           if negb (HasPrefix metric (NamePrefix p))
           then PushFront (NewSample "" (BuildMetric [NamePrefix p; metric; ""])
                             value [deref h tags]) slist
           else PushFront (NewSample "" (BuildMetric [""; metric; ""])
                             value [deref h tags]) slist)
    slist (map_to_list fields).

(** The body of the inner loop of [Gather]: one metric of one family. *)
Definition gatherMetric (ins : Instance) (mf : dto.MetricFamily) (m : dto.Metric)
    (st : heap * SampleList) : outcome (heap * SampleList) :=
  let metricName := GetName mf in
  let '(tags, h) := makeLabels ins m st.1 in
  if decide (GetType mf = MetricType_SUMMARY) then
    bind (HandleSummary ins m tags metricName h st.2) (fun slist => Done (h, slist))
  else if decide (GetType mf = MetricType_HISTOGRAM) then
    bind (HandleHistogram ins m tags metricName h st.2) (fun slist => Done (h, slist))
  else
    Done (h, handleGaugeCounter ins m tags metricName h st.2).

(** A [for ... range] loop whose body may panic. *)
Fixpoint forRange {A S : Type} (body : A -> S -> outcome S) (l : list A) (st : S)
    : outcome S :=
  match l with
  | [] => Done st
  | a :: l => bind (body a st) (forRange body l)
  end.

(** [Gather]; [snapshot] is what the registry's transactional gatherer
    returned, [None] standing for its error. *)
Definition Gather (ins : Instance) (snapshot : option (list dto.MetricFamily))
    (st : heap * SampleList) : outcome (heap * SampleList) :=
  match snapshot with
  | None => Done st
  | Some mfs =>
      forRange (fun mf => forRange (gatherMetric ins mf) (Metric_ mf)) mfs st
  end.

End Strategies.

(** A metric of kind Gauge, Counter or Untyped carrying the value [v]:
    the payload of its kind is set and the payloads that
    [getNameAndValue] looks at before it are nil. *)
Inductive plain_metric (m : dto.Metric) (v : float) : Prop :=
| plain_gauge : Gauge m = Some v -> plain_metric m v
| plain_counter : Gauge m = None -> Counter m = Some v -> plain_metric m v
| plain_untyped :
    Gauge m = None -> Counter m = None -> Untyped m = Some v -> plain_metric m v.

End Mtail.

(** ** Package [github] *)

Module Github.

Definition inputName : string := "jenkins".

(** A [*githubLib.Repository], as far as its getters are read. *)
Record Repository : Type := {
  GetOwner_GetLogin : string;
  GetName : string;
  GetLanguage : string;
  GetLicense_GetName : string;
  GetStargazersCount : Z;
  GetSubscribersCount : Z;
  GetWatchersCount : Z;
  GetNetworkCount : Z;
  GetForksCount : Z;
  GetOpenIssuesCount : Z;
  GetSize : Z
}.

(** The HTTP client handed to the GitHub library: the plain one with the
    response timeout, or the OAuth one built from the static token. *)
Inductive http_Client : Type :=
| httpClient (Timeout : Z)
| oauthClient (AccessToken : string).

(** A [*githubLib.Client]. *)
Inductive Client : Type :=
| NewClient (c : http_Client)
| EnterpriseClient (baseURL : string) (c : http_Client).

Record Instance : Type := {
  Repositories : list string;
  AccessToken : string;
  AdditionalFields : list string;
  EnterpriseBaseURL : string;
  ResponseTimeout : Z;
  githubClient : option Client;
  obfuscatedToken : string
}.

Definition set_obfuscatedToken (ins : Instance) (v : string) : Instance :=
  {| Repositories := Repositories ins;
     AccessToken := AccessToken ins;
     AdditionalFields := AdditionalFields ins;
     EnterpriseBaseURL := EnterpriseBaseURL ins;
     ResponseTimeout := ResponseTimeout ins;
     githubClient := githubClient ins;
     obfuscatedToken := v |}.

Definition set_githubClient (ins : Instance) (c : Client) : Instance :=
  {| Repositories := Repositories ins;
     AccessToken := AccessToken ins;
     AdditionalFields := AdditionalFields ins;
     EnterpriseBaseURL := EnterpriseBaseURL ins;
     ResponseTimeout := ResponseTimeout ins;
     githubClient := Some c;
     obfuscatedToken := obfuscatedToken ins |}.

Definition getLicense (rI : Repository) : string :=
  let licenseName := GetLicense_GetName rI in
  if decide (licenseName ≠ "") then licenseName else "None".

Definition getTags (repositoryInfo : Repository) : gmap string string :=
  <["owner" := GetOwner_GetLogin repositoryInfo]>
  (<["name" := GetName repositoryInfo]>
  (<["language" := GetLanguage repositoryInfo]>
  (<["license" := getLicense repositoryInfo]> ∅))).

Definition getFields (repositoryInfo : Repository) : gmap string iface :=
  <["stars" := Int (GetStargazersCount repositoryInfo)]>
  (<["subscribers" := Int (GetSubscribersCount repositoryInfo)]>
  (<["watchers" := Int (GetWatchersCount repositoryInfo)]>
  (<["networks" := Int (GetNetworkCount repositoryInfo)]>
  (<["forks" := Int (GetForksCount repositoryInfo)]>
  (<["open_issues" := Int (GetOpenIssuesCount repositoryInfo)]>
  (<["size" := Int (GetSize repositoryInfo)]> ∅)))))).

(** [splitRepositoryName] returns the triple (owner, repository, err);
    [None] is the nil error. *)
Definition splitRepositoryName (repositoryName : string)
    : string * string * option string :=
  let splits := SplitN repositoryName "/" 2 in
  match splits with
  | [owner; repository] => (owner, repository, None)
  | _ => ("", "", Some (repositoryName +:+ " is not of format 'owner/repository'"))
  end.

(** *** Client creation *)

Section ClientCreation.

(** [githubLib.NewEnterpriseClient(baseURL, "", httpClient)]; [None] is
    its error. *)
Variable NewEnterpriseClient : string -> http_Client -> option Client.

Definition newGithubClient (ins : Instance) (c : http_Client) : option Client :=
  if decide (EnterpriseBaseURL ins ≠ "") then NewEnterpriseClient (EnterpriseBaseURL ins) c
  else Some (NewClient c).

(** The instance is a pointer receiver: the function returns it as
    updated, next to the (client, err) pair. *)
Definition createGitHubClient (ins : Instance) : outcome (Instance * option Client) :=
  let plain := httpClient (ResponseTimeout ins) in
  let ins := set_obfuscatedToken ins "Unauthenticated" in
  if decide (AccessToken ins ≠ "") then
    let oauth := oauthClient (AccessToken ins) in
    bind (slice (AccessToken ins) 0 4) (fun head =>
    bind (slice (AccessToken ins) (len (AccessToken ins) - 3) (len (AccessToken ins)))
      (fun tail =>
         let ins := set_obfuscatedToken ins (head +:+ "..." +:+ tail) in
         Done (ins, newGithubClient ins oauth)))
  else Done (ins, newGithubClient ins plain).

End ClientCreation.

(** *** The work of one goroutine

    The body of the goroutine is a tree of actions on the shared client,
    the logger and the sink, each with the continuation that receives the
    action's result. *)

Inductive Prog : Type :=
| Ret
| Log (msg : string) (k : Prog)
| Repositories_Get (owner repo : string) (k : option Repository -> Prog)
| Search_Issues (q : string) (k : option Z -> Prog)
| PushSamples (prefix : string) (fields : gmap string iface)
    (tags : gmap string string) (k : Prog).

(** The loop of [getPullRequestFields] over the classes; the continuation
    receives the returned pair (fields, err), [true] for a non-nil error. *)
Fixpoint searchClasses (owner repo : string) (classes : list string)
    (fields : gmap string iface) (k : gmap string iface -> bool -> Prog) : Prog :=
  match classes with
  | [] => k fields false
  | class :: classes =>
      let q := "repo:" +:+ owner +:+ "/" +:+ repo +:+ " is:pr is:" +:+ class in
      Search_Issues q (fun searchResult =>
        match searchResult with
        | None => Log "E! github search failed" (k fields true)
        | Some total =>
            let f := class +:+ "_pull_requests" in
            searchClasses owner repo classes (<[f := Int total]> fields) k
        end)
  end.

Definition getPullRequestFields (owner repo : string)
    (k : gmap string iface -> bool -> Prog) : Prog :=
  let classes := ["open"; "closed"] in
  let fields : gmap string iface := ∅ in
  searchClasses owner repo classes fields k.

(** The loop over [ins.AdditionalFields]. *)
Fixpoint additionalLoop (owner repository : string) (additional : list string)
    (fields : gmap string iface) (k : gmap string iface -> Prog) : Prog :=
  match additional with
  | [] => k fields
  | field :: additional =>
      if decide (field = "pull-requests") then
        getPullRequestFields owner repository (fun addFields err =>
          if err then
            Log "E! get PullRequestFields err"
              (additionalLoop owner repository additional fields k)
          else
            additionalLoop owner repository additional (addFields ∪ fields) k)
      else
        Log "E! unknown additional field"
          (additionalLoop owner repository additional fields k)
  end.

(** The function literal that [Gather] starts once per repository, up to
    its deferred [wg.Done()]. *)
Definition repoTask (ins : Instance) (repositoryName : string) : Prog :=
  let '(owner, repository, err) := splitRepositoryName repositoryName in
  match err with
  | Some _ => Log "E! splitRepositoryName" Ret
  | None =>
      Repositories_Get owner repository (fun r =>
        match r with
        | None => Log "E! get repositoryInfo err" Ret
        | Some repositoryInfo =>
            let tags := getTags repositoryInfo in
            let fields := getFields repositoryInfo in
            additionalLoop owner repository (AdditionalFields ins) fields
              (fun fields => PushSamples inputName fields tags Ret)
        end)
  end.

(** *** Running against the remote API

    The GitHub API is an external collaborator with a state of its own:
    a request returns a result, [None] for an error, and the next state. *)

Inductive Event : Type :=
| EvLog (msg : string)
| EvGet (owner repo : string)
| EvSearch (q : string)
| EvPush (prefix : string) (fields : gmap string iface) (tags : gmap string string).

Section Running.

Variable World : Type.
Variable api_Get : World -> string -> string -> option Repository * World.
Variable api_Search : World -> string -> option Z * World.

(** One action of a goroutine: the event it shows and what remains. *)
Definition act (p : Prog) (w : World) : option (Event * Prog * World) :=
  match p with
  | Ret => None
  | Log msg k => Some (EvLog msg, k, w)
  | Repositories_Get owner repo k =>
      let '(r, w) := api_Get w owner repo in Some (EvGet owner repo, k r, w)
  | Search_Issues q k =>
      let '(r, w) := api_Search w q in Some (EvSearch q, k r, w)
  | PushSamples prefix fields tags k => Some (EvPush prefix fields tags, k, w)
  end.

(** A goroutine run to its end without interruption. *)
Fixpoint run (p : Prog) (w : World) : list Event * World :=
  match p with
  | Ret => ([], w)
  | Log msg k => let '(t, w) := run k w in (EvLog msg :: t, w)
  | Repositories_Get owner repo k =>
      let '(r, w) := api_Get w owner repo in
      let '(t, w) := run (k r) w in (EvGet owner repo :: t, w)
  | Search_Issues q k =>
      let '(r, w) := api_Search w q in
      let '(t, w) := run (k r) w in (EvSearch q :: t, w)
  | PushSamples prefix fields tags k =>
      let '(t, w) := run k w in (EvPush prefix fields tags :: t, w)
  end.

(** *** [Gather] and its goroutines as a machine *)

Variable NewEnterpriseClient : string -> http_Client -> option Client.

Inductive goroutine : Type :=
| Running (p : Prog)
| Exited.

(** Where the calling goroutine stands in [Gather]. *)
Inductive Main : Type :=
| MEntry
| MLoop (rest : list string)
| MReturned
| MPanicked.

Record State : Type := {
  ins : Instance;
  main : Main;
  wg : Z;
  goroutines : list goroutine;
  world : World;
  events : list Event
}.

Definition init (i : Instance) (w : World) : State :=
  {| ins := i; main := MEntry; wg := 0; goroutines := []; world := w; events := [] |}.

(** One step of the caller.  From the entry: the lazy creation of the
    client, then [wg.Add].  In the loop: one [go] statement per
    repository.  After the loop the function body ends. *)
Definition main_step (s : State) : option State :=
  match main s with
  | MEntry =>
      let enter (i : Instance) :=
        {| ins := i; main := MLoop (Repositories i);
           wg := wg s + Z.of_nat (length (Repositories i));
           goroutines := goroutines s; world := world s; events := events s |} in
      match githubClient (ins s) with
      | Some _ => Some (enter (ins s))
      | None =>
          match createGitHubClient NewEnterpriseClient (ins s) with
          | Panic =>
              Some {| ins := ins s; main := MPanicked; wg := wg s;
                      goroutines := goroutines s; world := world s; events := events s |}
          | Done (i, None) =>
              Some {| ins := i; main := MReturned; wg := wg s;
                      goroutines := goroutines s; world := world s;
                      events := events s ++ [EvLog "E! failed to new githubClient:"] |}
          | Done (i, Some client) => Some (enter (set_githubClient i client))
          end
      end
  | MLoop (repository :: rest) =>
      Some {| ins := ins s; main := MLoop rest; wg := wg s;
              goroutines := goroutines s ++ [Running (repoTask (ins s) repository)];
              world := world s; events := events s |}
  | MLoop [] =>
      Some {| ins := ins s; main := MReturned; wg := wg s;
              goroutines := goroutines s; world := world s; events := events s |}
  | MReturned | MPanicked => None
  end.

(** One step of goroutine [i]: its next action, or, at the end of its
    body, the deferred [wg.Done()]. *)
Definition goroutine_step (i : nat) (s : State) : option State :=
  match goroutines s !! i with
  | Some (Running p) =>
      match act p (world s) with
      | Some (e, p', w) =>
          Some {| ins := ins s; main := main s; wg := wg s;
                  goroutines := <[i := Running p']> (goroutines s);
                  world := w; events := events s ++ [e] |}
      | None =>
          Some {| ins := ins s; main := main s; wg := wg s - 1;
                  goroutines := <[i := Exited]> (goroutines s);
                  world := world s; events := events s |}
      end
  | _ => None
  end.

(** The scheduler picks the caller or any goroutine. *)
Definition step (s s' : State) : Prop :=
  main_step s = Some s' \/ exists i, goroutine_step i s = Some s'.

End Running.

(** The calls of [PushSamples] among the events. *)
Definition is_push (e : Event) : bool :=
  match e with EvPush _ _ _ => true | _ => false end.

Definition pushed (t : list Event) : list Event := List.filter is_push t.

(** The events of the additional-field requests: searches and log lines. *)
Definition is_search_or_log (e : Event) : bool :=
  match e with EvSearch _ | EvLog _ => true | _ => false end.

(** The requests to the remote API among the events. *)
Definition is_fetch (e : Event) : bool :=
  match e with EvGet _ _ | EvSearch _ => true | _ => false end.

Definition fetches (t : list Event) : list Event := List.filter is_fetch t.

End Github.

(** ** Package [mtail]: the life cycle of an instance *)

Module MtailInit.

(** [time.Duration] counts nanoseconds. *)
Definition Millisecond : Z := 1000000.
Definition Minute : Z := 60000000000.

(** The fields of [mtail.Option] that [Init] assigns; a field that is not
    assigned keeps the zero value of the composite literal. *)
Record Option : Type := {
  Opt_Logs : list string;
  Opt_Progs : string;
  Opt_NamePrefix : string;
  Opt_IgnoreFileRegPattern : string;
  Opt_OverrideTimeZone : string;
  Opt_Version : string;
  Opt_SyslogUseCurrentYear : bool;
  Opt_LogRuntimeErrors : bool;
  Opt_OmitProgLabel : bool;
  Opt_PollLogInterval : Z;
  Opt_PollInterval : Z;
  Opt_MetricPushInterval : Z;
  Opt_MaxRegexpLen : Z;
  Opt_MaxRecursionDepth : Z
}.

(** The error that [Init] returns: the sentinel of package [types], or
    the error of [mtail.GetRegistry]. *)
Inductive error : Type :=
| ErrInstancesEmpty
| RegistryError (msg : string).

(** The contexts made so far, each with its cancelled flag.  The cancel
    function that [context.WithCancel] returns is known by the context
    it cancels. *)
Abbreviation contexts := (gmap positive bool).

Definition cancel_context (c : positive) (w : contexts) : contexts := <[c := true]> w.

(** Calling a value of type [context.CancelFunc]; calling nil panics. *)
Definition call_cancel (f : option positive) (w : contexts) : outcome contexts :=
  match f with
  | Some c => Done (cancel_context c w)
  | None => Panic
  end.

Section Init.

Variable Registry : Type.

(** [config.Version]. *)
Variable Version : string.

(** [mtail.GetRegistry(ctx, opt)], which may look at the state of the
    contexts. *)
Variable GetRegistry : contexts -> option positive -> Option -> Registry + string.

(** The fields of [Instance] that [Init] and [Drop] read and write. *)
Record Instance : Type := {
  NamePrefix : string;
  Progs : string;
  Logs : list string;
  IgnoreFileRegPattern : string;
  OverrideTimeZone : string;
  EmitProgLabel : string;
  PollInterval : Z;
  PollLogInterval : Z;
  MetricPushInterval : Z;
  MaxRegexpLen : Z;
  MaxRecursionDepth : Z;
  SyslogUseCurrentYear : string;
  LogRuntimeErrors : string;
  ctx : option positive;
  cancel : option positive;
  m : option Registry
}.

Definition set_context (ins : Instance) (c : positive) : Instance :=
  {| NamePrefix := NamePrefix ins; Progs := Progs ins; Logs := Logs ins;
     IgnoreFileRegPattern := IgnoreFileRegPattern ins;
     OverrideTimeZone := OverrideTimeZone ins; EmitProgLabel := EmitProgLabel ins;
     PollInterval := PollInterval ins; PollLogInterval := PollLogInterval ins;
     MetricPushInterval := MetricPushInterval ins; MaxRegexpLen := MaxRegexpLen ins;
     MaxRecursionDepth := MaxRecursionDepth ins;
     SyslogUseCurrentYear := SyslogUseCurrentYear ins;
     LogRuntimeErrors := LogRuntimeErrors ins;
     ctx := Some c; cancel := Some c; m := m ins |}.

Definition set_m (ins : Instance) (registry : Registry) : Instance :=
  {| NamePrefix := NamePrefix ins; Progs := Progs ins; Logs := Logs ins;
     IgnoreFileRegPattern := IgnoreFileRegPattern ins;
     OverrideTimeZone := OverrideTimeZone ins; EmitProgLabel := EmitProgLabel ins;
     PollInterval := PollInterval ins; PollLogInterval := PollLogInterval ins;
     MetricPushInterval := MetricPushInterval ins; MaxRegexpLen := MaxRegexpLen ins;
     MaxRecursionDepth := MaxRecursionDepth ins;
     SyslogUseCurrentYear := SyslogUseCurrentYear ins;
     LogRuntimeErrors := LogRuntimeErrors ins;
     ctx := ctx ins; cancel := cancel ins; m := Some registry |}.

(** The option value that [Init] builds from the zero value. *)
Definition buildOption (ins : Instance) : Option :=
  {| Opt_Logs := Logs ins;
     Opt_Progs := Progs ins;
     Opt_NamePrefix := NamePrefix ins;
     Opt_IgnoreFileRegPattern := IgnoreFileRegPattern ins;
     Opt_OverrideTimeZone := OverrideTimeZone ins;
     Opt_Version := Version;
     Opt_SyslogUseCurrentYear :=
       if decide (SyslogUseCurrentYear ins <> "false") then true else false;
     Opt_LogRuntimeErrors :=
       if decide (LogRuntimeErrors ins <> "false") then true else false;
     Opt_OmitProgLabel :=
       if decide (EmitProgLabel ins <> "false") then true else false;
     Opt_PollLogInterval :=
       if decide (PollLogInterval ins = 0) then 250 * Millisecond else 0;
     Opt_PollInterval :=
       if decide (PollInterval ins = 0) then 250 * Millisecond else 0;
     Opt_MetricPushInterval :=
       if decide (MetricPushInterval ins = 0) then 1 * Minute else 0;
     Opt_MaxRegexpLen := if decide (MaxRegexpLen ins = 0) then 1024 else 0;
     Opt_MaxRecursionDepth := if decide (MaxRecursionDepth ins = 0) then 100 else 0 |}.

(** [Init] returns its error, [None] for nil, with the instance and the
    contexts as it leaves them. *)
Definition Init (ins : Instance) (w : contexts)
    : outcome (option error * Instance * contexts) :=
  if decide (len (Progs ins) = 0 \/ length (Logs ins) = 0%nat) then
    Done (Some ErrInstancesEmpty, ins, w)
  else
    let opt := buildOption ins in
    let '(ins, w) :=
      match cancel ins with
      | Some c => (ins, cancel_context c w)
      | None =>
          let c := fresh (dom w) in
          (set_context ins c, <[c := false]> w)
      end in
    match GetRegistry w (ctx ins) opt with
    | inr err =>
        bind (call_cancel (cancel ins) w) (fun w =>
        Done (Some (RegistryError err), ins, w))
    | inl registry => Done (None, set_m ins registry, w)
    end.

Definition Drop (ins : Instance) (w : contexts) : outcome contexts :=
  call_cancel (cancel ins) w.

End Init.

End MtailInit.

(** ** Observations on the state of the mtail [Gather] *)

Module MtailObs.

Import types Mtail.

(** The state of [Gather] only grows: maps are added to the heap and
    samples to the sink. *)
Definition grows (st st' : heap * SampleList) : Prop :=
  st.1 ⊆ st'.1 /\ exists new, emitted st'.2 = emitted st.2 ++ new.

(** The label map of the instance is on the heap when it is not nil. *)
Definition labels_allocated (ins : Instance) (h : heap) : Prop :=
  forall l, Labels ins = Some l -> is_Some (h !! l).

End MtailObs.

(** ** Observations on the goroutines of the github input *)

Module GithubObs.

Import Github.

Definition is_running (g : goroutine) : bool :=
  match g with Running _ => true | Exited => false end.

(** The goroutines that have started and not yet finished. *)
Definition running (gs : list goroutine) : nat := length (List.filter is_running gs).

(** The repositories for which the caller has not yet started a
    goroutine. *)
Definition pending (m : Main) : nat :=
  match m with MLoop rest => length rest | _ => 0%nat end.

(** How often "pull-requests" is listed among the additional fields. *)
Definition pull_requests_entries (additional : list string) : nat :=
  length (List.filter (String.eqb "pull-requests") additional).

(** A field map holds the two pull-request counts together or not at
    all. *)
Definition counts_paired (fields : gmap string iface) : Prop :=
  is_Some (fields !! "open_pull_requests") <->
  is_Some (fields !! "closed_pull_requests").

Section InTurn.

Variable World : Type.
Variable api_Get : World -> string -> string -> option Repository * World.
Variable api_Search : World -> string -> option Z * World.

(** The goroutines of the repositories run one after the other, each to
    its end, on the remote API as the one before left it. *)
Fixpoint run_in_turn (i : Instance) (repositories : list string) (w : World)
    : list Event * World :=
  match repositories with
  | [] => ([], w)
  | repository :: rest =>
      let '(t, w) := run World api_Get api_Search (repoTask i repository) w in
      let '(t', w) := run_in_turn i rest w in
      (t ++ t', w)
  end.

End InTurn.

End GithubObs.

(** Inputs for the life cycle of an mtail instance. *)

Module InitFixtures.

Import MtailInit.

Definition fresh_instance (progs : string) (logs : list string) : Instance unit :=
  {| NamePrefix := ""; Progs := progs; Logs := logs;
     IgnoreFileRegPattern := ""; OverrideTimeZone := ""; EmitProgLabel := "";
     PollInterval := 0; PollLogInterval := 0; MetricPushInterval := 0;
     MaxRegexpLen := 0; MaxRecursionDepth := 0;
     SyslogUseCurrentYear := ""; LogRuntimeErrors := "";
     ctx := None; cancel := None; m := None |}.

(** A registry source that works as long as the context is live. *)
Definition GetRegistry (w : gmap positive bool) (c : option positive) (opt : Option)
    : unit + string :=
  match c with
  | Some c => if decide (w !! c = Some false) then inl tt else inr "context canceled"
  | None => inr "no context"
  end.

(** An instance as a first [Init] leaves it, with its live context. *)
Definition initialised_instance : Instance unit :=
  set_m unit (set_context unit (fresh_instance "progs" ["app.log"]) 1%positive) tt.

Definition one_live_context : gmap positive bool := {[ 1%positive := false ]}.

End InitFixtures.


(** * Concrete inputs used by the examples below *)

Module Fixtures.

Import dto types.

(** A formatter that knows the bounds and quantiles of the fixtures. *)
Definition sprint (f : float) : string :=
  if PrimFloat.eqb f 0.25%float then "0.25"
  else if PrimFloat.eqb f 0.5%float then "0.5"
  else "0".

Definition labels : gmap string string := {[ "region" := "eu" ]}.

Definition heap0 : gmap positive (gmap string string) := {[ 1%positive := labels ]}.

Definition mtail_ins : Mtail.Instance :=
  {| Mtail.Labels := Some 1%positive; Mtail.NamePrefix := "mtail_" |}.

Definition no_payload : dto.Metric :=
  {| Label := []; Gauge := None; Counter := None; Summary_ := None;
     Untyped := None; Histogram_ := None |}.

Definition gauge (v : float) : dto.Metric :=
  {| Label := []; Gauge := Some v; Counter := None; Summary_ := None;
     Untyped := None; Histogram_ := None |}.

Definition request_latency : dto.Histogram :=
  {| Histogram_SampleCount := 20;
     Histogram_SampleSum := 3.5%float;
     Histogram_Bucket :=
       [ {| GetCumulativeCount := 5; GetUpperBound := 0.25%float |};
         {| GetCumulativeCount := 12; GetUpperBound := 0.5%float |} ] |}.

Definition histogram_metric : dto.Metric :=
  {| Label := []; Gauge := None; Counter := None; Summary_ := None;
     Untyped := None; Histogram_ := Some request_latency |}.

Definition rpc_duration : dto.Summary :=
  {| Summary_SampleCount := 4;
     Summary_SampleSum := 10%float;
     Summary_Quantile :=
       [ {| GetQuantile := 0.5%float; Quantile_GetValue := 2%float |} ] |}.

Definition summary_metric : dto.Metric :=
  {| Label := []; Gauge := None; Counter := None; Summary_ := Some rpc_duration;
     Untyped := None; Histogram_ := None |}.

(** A family of a kind that the classifier does not know (5 is
    GAUGE_HISTOGRAM in later versions of the data model); its metric
    carries a histogram and no single value. *)
Definition unknown_family : dto.MetricFamily :=
  {| dto.GetName := "queue_depth"; GetType := 5; Metric_ := [histogram_metric] |}.

Import Github.

Definition hello_world : Repository :=
  {| GetOwner_GetLogin := "octocat"; GetName := "Hello-World";
     GetLanguage := "Go"; GetLicense_GetName := "";
     GetStargazersCount := 80; GetSubscribersCount := 3; GetWatchersCount := 80;
     GetNetworkCount := 9; GetForksCount := 9; GetOpenIssuesCount := 2;
     GetSize := 108 |}.

Definition client : Client := NewClient (httpClient 5).

Definition github_ins (repositories additional : list string) : Github.Instance :=
  {| Repositories := repositories; AccessToken := "";
     AdditionalFields := additional; EnterpriseBaseURL := "";
     ResponseTimeout := 5; githubClient := Some client;
     obfuscatedToken := "Unauthenticated" |}.

Definition token_ins (token : string) : Github.Instance :=
  {| Repositories := ["octocat/Hello-World"]; AccessToken := token;
     AdditionalFields := []; EnterpriseBaseURL := "";
     ResponseTimeout := 5; githubClient := None; obfuscatedToken := "" |}.

(** A remote API whose state counts the searches made so far: every
    repository is found, the first search fails, the later ones answer. *)
Definition api_Get (w : nat) (owner repo : string) : option Repository * nat :=
  (Some hello_world, w).

Definition api_Search (w : nat) (q : string) : option Z * nat :=
  (if Nat.eqb w 0 then None else Some 7, S w).

Definition NewEnterpriseClient (baseURL : string) (c : http_Client) : option Client :=
  Some (EnterpriseClient baseURL c).

End Fixtures.

(** Snapshots and configurations for the further examples. *)

Module MoreFixtures.

Import dto types Fixtures.

Definition old_sink : SampleList := [NewSample "" "old" (Int 1) []].

Definition snapshot : list dto.MetricFamily :=
  [ {| dto.GetName := "up"; GetType := MetricType_GAUGE;
       Metric_ := [gauge 1.5%float; gauge PrimFloat.nan] |};
    {| dto.GetName := "rpc_duration"; GetType := MetricType_SUMMARY;
       Metric_ := [summary_metric] |} ].

End MoreFixtures.

(** * Properties of the mtail strategies *)

Import dto types prom.

Section MtailFacts.

Import Mtail.

Variable fmt_Sprint : float -> string.

Lemma append_String (a : ascii) (s t : string) :
  String a s +:+ t = String a (s +:+ t).
Proof. reflexivity. Qed.

Lemma append_empty_l (s : string) : "" +:+ s = s.
Proof. reflexivity. Qed.

Lemma append_empty_r (s : string) : s +:+ "" = s.
Proof.
  induction s as [|a s IH]; [reflexivity|].
  by rewrite append_String, IH.
Qed.

Lemma append_assoc (s t u : string) : (s +:+ t) +:+ u = s +:+ t +:+ u.
Proof.
  induction s as [|a s IH]; [reflexivity|].
  by rewrite !append_String, IH.
Qed.

Lemma prefix_append (p s : string) : String.prefix p (p +:+ s) = true.
Proof.
  induction p as [|c p IH].
  - by destruct s.
  - rewrite append_String. simpl.
    destruct (Ascii.ascii_dec c c); [exact IH | congruence].
Qed.

Lemma HasPrefix_composed (prefix name : string) :
  HasPrefix (prefix +:+ name) prefix = true.
Proof. apply prefix_append. Qed.

Lemma emitted_PushFront (v : Sample) (l : SampleList) :
  emitted (PushFront v l) = emitted l ++ [v].
Proof. reflexivity. Qed.

Lemma emitted_foldl_PushFront {A} (f : A -> Sample) (xs : list A) (l : SampleList) :
  emitted (foldl (fun l x => PushFront (f x) l) l xs) = emitted l ++ map f xs.
Proof.
  revert l. induction xs as [|x xs IH]; intros l; simpl.
  - by rewrite app_nil_r.
  - rewrite IH, emitted_PushFront, <- app_assoc. reflexivity.
Qed.

Lemma NewSample_one_layer prefix metric value (tags : gmap string string) :
  NewSample prefix metric value [tags]
  = {| Prefix := prefix; Metric := metric; Value := value; types.Labels := tags |}.
Proof. unfold NewSample. simpl. by rewrite (right_id_L ∅ (∪)). Qed.

Lemma NewSample_two_layers prefix metric value (tags : gmap string string) k v :
  NewSample prefix metric value [tags; {[ k := v ]}]
  = {| Prefix := prefix; Metric := metric; Value := value;
       types.Labels := <[k := v]> tags |}.
Proof.
  unfold NewSample. simpl.
  by rewrite (right_id_L ∅ (∪)), <- insert_union_singleton_l.
Qed.

(** The base name that the three strategies give their samples. *)
Lemma BuildMetric_base (prefix metricName : string) :
  BuildMetric [(if negb (HasPrefix metricName prefix) then prefix else "");
               metricName]
  = if HasPrefix metricName prefix then metricName else prefix +:+ metricName.
Proof.
  unfold BuildMetric. rewrite append_empty_r.
  by destruct (HasPrefix metricName prefix).
Qed.

Lemma BuildMetric_suffix (prefix metricName suffix : string) :
  suffix <> "" ->
  BuildMetric [(if negb (HasPrefix metricName prefix) then prefix else "");
               metricName; suffix]
  = (if HasPrefix metricName prefix then metricName else prefix +:+ metricName)
    +:+ "_" +:+ suffix.
Proof.
  intros Hs. unfold BuildMetric. rewrite decide_False by done.
  destruct (HasPrefix metricName prefix); simpl; [done|].
  by rewrite append_assoc.
Qed.

(** The sample that a strategy pushes: the constructor is always called
    with the empty prefix. *)
Local Abbreviation sample name value tags :=
  {| Prefix := ""; Metric := name; Value := value; types.Labels := tags |}.

Lemma HandleSummary_emitted p m tags metricName h slist s :
  Summary_ m = Some s ->
  exists out,
    HandleSummary fmt_Sprint p m tags metricName h slist = Done out /\
    emitted out =
      emitted slist ++
      [sample (BuildMetric [(if negb (HasPrefix metricName (NamePrefix p))
                             then NamePrefix p else ""); metricName; "count"])
         (Float64 (float64_of_uint64 (Summary_SampleCount s))) (deref h tags);
       sample (BuildMetric [(if negb (HasPrefix metricName (NamePrefix p))
                             then NamePrefix p else ""); metricName; "sum"])
         (Float64 (Summary_SampleSum s)) (deref h tags)] ++
      map (fun q =>
             sample (BuildMetric [(if negb (HasPrefix metricName (NamePrefix p))
                                   then NamePrefix p else ""); metricName])
               (Float64 (Quantile_GetValue q))
               (<["quantile" := fmt_Sprint (GetQuantile q)]> (deref h tags)))
        (Summary_Quantile s).
Proof.
  intros Hs. unfold HandleSummary. rewrite Hs. eexists. split; [reflexivity|].
  rewrite (emitted_foldl_PushFront
             (fun q => NewSample "" _ (Float64 (Quantile_GetValue q))
                         [deref h tags; {[ "quantile" := fmt_Sprint (GetQuantile q) ]}])).
  rewrite !emitted_PushFront, !NewSample_one_layer, <- !app_assoc. simpl.
  do 3 f_equal. apply map_ext. intros q. apply NewSample_two_layers.
Qed.

Lemma HandleHistogram_emitted p m tags metricName h slist hist :
  Histogram_ m = Some hist ->
  exists out,
    HandleHistogram fmt_Sprint p m tags metricName h slist = Done out /\
    emitted out =
      emitted slist ++
      [sample (BuildMetric [(if negb (HasPrefix metricName (NamePrefix p))
                             then NamePrefix p else ""); metricName; "count"])
         (Float64 (float64_of_uint64 (Histogram_SampleCount hist))) (deref h tags);
       sample (BuildMetric [(if negb (HasPrefix metricName (NamePrefix p))
                             then NamePrefix p else ""); metricName; "sum"])
         (Float64 (Histogram_SampleSum hist)) (deref h tags);
       sample (BuildMetric [(if negb (HasPrefix metricName (NamePrefix p))
                             then NamePrefix p else ""); metricName; "bucket"])
         (Float64 (float64_of_uint64 (Histogram_SampleCount hist)))
         (<["le" := "+Inf"]> (deref h tags))] ++
      map (fun b =>
             sample (BuildMetric [(if negb (HasPrefix metricName (NamePrefix p))
                                   then NamePrefix p else ""); metricName; "bucket"])
               (Float64 (float64_of_uint64 (GetCumulativeCount b)))
               (<["le" := fmt_Sprint (GetUpperBound b)]> (deref h tags)))
        (Histogram_Bucket hist).
Proof.
  intros Hh. unfold HandleHistogram. rewrite Hh. eexists. split; [reflexivity|].
  rewrite (emitted_foldl_PushFront
             (fun b => NewSample "" _ (Float64 (float64_of_uint64 (GetCumulativeCount b)))
                         [deref h tags; {[ "le" := fmt_Sprint (GetUpperBound b) ]}])).
  rewrite !emitted_PushFront, !NewSample_one_layer, NewSample_two_layers,
    <- !app_assoc. simpl.
  do 4 f_equal. apply map_ext. intros b. apply NewSample_two_layers.
Qed.

Lemma getNameAndValue_plain m metricName v :
  plain_metric m v ->
  getNameAndValue m metricName
  = if IsNaN v then ∅ else {[ metricName := Float64 v ]}.
Proof.
  intros [Hg | Hg Hc | Hg Hc Hu]; unfold getNameAndValue;
    rewrite ?Hg, ?Hc, ?Hu; by destruct (IsNaN v).
Qed.

Lemma getNameAndValue_none m metricName :
  Gauge m = None -> Counter m = None -> Untyped m = None ->
  getNameAndValue m metricName = ∅.
Proof. intros Hg Hc Hu. unfold getNameAndValue. by rewrite Hg, Hc, Hu. Qed.

Lemma handleGaugeCounter_nan p m tags metricName h slist v :
  plain_metric m v -> IsNaN v = true ->
  handleGaugeCounter p m tags metricName h slist = slist.
Proof.
  intros Hm Hnan. unfold handleGaugeCounter.
  rewrite (getNameAndValue_plain _ _ v Hm), Hnan.
  by rewrite map_to_list_empty.
Qed.

Lemma handleGaugeCounter_emitted p m tags metricName h slist v :
  plain_metric m v -> IsNaN v = false ->
  emitted (handleGaugeCounter p m tags metricName h slist)
  = emitted slist ++
    [sample (if HasPrefix metricName (NamePrefix p) then metricName
             else NamePrefix p +:+ metricName)
       (Float64 v) (deref h tags)].
Proof.
  intros Hm Hnan. unfold handleGaugeCounter.
  rewrite (getNameAndValue_plain _ _ v Hm), Hnan, map_to_list_singleton.
  cbn [foldl]. destruct (HasPrefix metricName (NamePrefix p)); cbn [negb];
    rewrite emitted_PushFront, NewSample_one_layer; unfold BuildMetric; simpl;
    by rewrite ?append_empty_r.
Qed.

Lemma handleGaugeCounter_no_payload p m tags metricName h slist :
  Gauge m = None -> Counter m = None -> Untyped m = None ->
  handleGaugeCounter p m tags metricName h slist = slist.
Proof.
  intros Hg Hc Hu. unfold handleGaugeCounter.
  by rewrite getNameAndValue_none, map_to_list_empty.
Qed.

(** The copy loop of [makeLabels] fills the map at [result] with the
    pairs it ranges over. *)
Lemma copy_loop (result : loc) (src : gmap string string) (h : heap) :
  is_Some (h !! result) ->
  map_fold (fun key value h => store result key value h) h src
  = <[result := src ∪ deref h result]> h.
Proof.
  intros [d Hd].
  apply (map_fold_weak_ind
           (fun r (src : gmap string string) => r = <[result := src ∪ deref h result]> h)).
  - rewrite (left_id_L ∅ (∪)). unfold deref.
    rewrite (lookup_total_correct _ _ _ Hd). by rewrite insert_id.
  - intros key value src' r _ ->. unfold store, deref.
    by rewrite lookup_total_insert_eq, insert_insert_eq, insert_union_l.
Qed.

Lemma makeLabels_copy p m (h : heap) :
  (forall l, Labels p = Some l -> is_Some (h !! l)) ->
  (makeLabels p m h).1 = fresh (dom h) /\
  h !! (makeLabels p m h).1 = None /\
  Labels p <> Some (makeLabels p m h).1 /\
  (makeLabels p m h).2 = <[(makeLabels p m h).1 := deref_nilable h (Labels p)]> h.
Proof.
  intros Hl. unfold makeLabels. simpl.
  pose proof (is_fresh (dom h)) as Hfresh.
  apply not_elem_of_dom in Hfresh.
  assert (Labels p <> Some (fresh (dom h))) as Hne.
  { intros Heq. destruct (Hl _ Heq) as [x Hx]. congruence. }
  repeat split; [done..|].
  rewrite copy_loop by (rewrite lookup_insert_eq; eauto).
  assert (deref_nilable (<[fresh (dom h) := ∅]> h) (Labels p)
          = deref_nilable h (Labels p)) as ->.
  { destruct (Labels p) as [l|]; [|done]. unfold deref_nilable, deref.
    apply lookup_total_insert_ne. congruence. }
  unfold deref. rewrite lookup_total_insert_eq.
  by rewrite (right_id_L ∅ (∪)), insert_insert_eq.
Qed.

(** C2: a Histogram metric with k declared buckets makes
    [HandleHistogram] emit exactly 3 + k samples, in this order: the
    [_count] sample with the sample count, the [_sum] sample with the
    sample sum, the [_bucket] sample tagged le="+Inf" with the sample
    count, then one [_bucket] sample per declared bucket, in the declared
    order, tagged with the formatted upper bound and carrying the
    cumulative count. *)
Theorem HandleHistogram_samples p m tags metricName h slist hist :
  Histogram_ m = Some hist ->
  let name := if HasPrefix metricName (NamePrefix p) then metricName
              else NamePrefix p +:+ metricName in
  exists out new,
    HandleHistogram fmt_Sprint p m tags metricName h slist = Done out /\
    emitted out = emitted slist ++ new /\
    length new = (3 + length (Histogram_Bucket hist))%nat /\
    new =
      [sample (name +:+ "_count")
         (Float64 (float64_of_uint64 (Histogram_SampleCount hist))) (deref h tags);
       sample (name +:+ "_sum")
         (Float64 (Histogram_SampleSum hist)) (deref h tags);
       sample (name +:+ "_bucket")
         (Float64 (float64_of_uint64 (Histogram_SampleCount hist)))
         (<["le" := "+Inf"]> (deref h tags))] ++
      map (fun b =>
             sample (name +:+ "_bucket")
               (Float64 (float64_of_uint64 (GetCumulativeCount b)))
               (<["le" := fmt_Sprint (GetUpperBound b)]> (deref h tags)))
        (Histogram_Bucket hist).
Proof.
  intros Hh name.
  destruct (HandleHistogram_emitted p m tags metricName h slist hist Hh)
    as (out & Hout & Hem).
  exists out. eexists. split; [exact Hout|]. split; [exact Hem|].
  rewrite !BuildMetric_suffix by discriminate.
  split; [|reflexivity].
  rewrite length_app, length_map. reflexivity.
Qed.

(** C3: a Summary metric with k declared quantiles makes [HandleSummary]
    emit exactly 2 + k samples, in this order: the [_count] sample with
    the sample count as a float, the [_sum] sample with the sample sum,
    then one sample per declared quantile, in the declared order, with the
    added tag quantile=<formatted quantile> and the quantile's value. *)
Theorem HandleSummary_samples p m tags metricName h slist s :
  Summary_ m = Some s ->
  let name := if HasPrefix metricName (NamePrefix p) then metricName
              else NamePrefix p +:+ metricName in
  exists out new,
    HandleSummary fmt_Sprint p m tags metricName h slist = Done out /\
    emitted out = emitted slist ++ new /\
    length new = (2 + length (Summary_Quantile s))%nat /\
    new =
      [sample (name +:+ "_count")
         (Float64 (float64_of_uint64 (Summary_SampleCount s))) (deref h tags);
       sample (name +:+ "_sum")
         (Float64 (Summary_SampleSum s)) (deref h tags)] ++
      map (fun q =>
             sample name (Float64 (Quantile_GetValue q))
               (<["quantile" := fmt_Sprint (GetQuantile q)]> (deref h tags)))
        (Summary_Quantile s).
Proof.
  intros Hs name.
  destruct (HandleSummary_emitted p m tags metricName h slist s Hs)
    as (out & Hout & Hem).
  exists out. eexists. split; [exact Hout|]. split; [exact Hem|].
  rewrite !BuildMetric_suffix by discriminate. rewrite BuildMetric_base.
  split; [|reflexivity].
  rewrite length_app, length_map. reflexivity.
Qed.

(** C4: on the plain numeric path a Gauge, Counter or Untyped metric whose
    value is NaN emits no sample, and one whose value is not NaN emits
    exactly one sample, whose value is the input value.  The path has no
    error result. *)
Theorem plain_numeric_nan_drop p m tags metricName h slist v :
  plain_metric m v ->
  (IsNaN v = true ->
   emitted (handleGaugeCounter p m tags metricName h slist) = emitted slist) /\
  (IsNaN v = false ->
   exists s,
     emitted (handleGaugeCounter p m tags metricName h slist) = emitted slist ++ [s] /\
     Value s = Float64 v).
Proof.
  intros Hm. split; intros Hnan.
  - by rewrite (handleGaugeCounter_nan _ _ _ _ _ _ v).
  - eexists. split; [by apply handleGaugeCounter_emitted|]. reflexivity.
Qed.

(** C5: name-prefix composition is idempotent.  On the plain numeric
    path a name that already starts with the prefix is emitted unchanged,
    a name that does not is emitted as prefix + name, and composing the
    emitted name again gives the same sample.  The Summary and Histogram
    strategies build their names on the same composed base name. *)
Theorem name_prefix_composition p m tags metricName h slist v ms s mh hist :
  plain_metric m v -> IsNaN v = false ->
  Summary_ ms = Some s -> Histogram_ mh = Some hist ->
  let name := if HasPrefix metricName (NamePrefix p) then metricName
              else NamePrefix p +:+ metricName in
  (exists x,
     emitted (handleGaugeCounter p m tags metricName h slist) = emitted slist ++ [x] /\
     (HasPrefix metricName (NamePrefix p) = true -> Metric x = metricName) /\
     (HasPrefix metricName (NamePrefix p) = false ->
      Metric x = NamePrefix p +:+ metricName) /\
     HasPrefix (Metric x) (NamePrefix p) = true /\
     emitted (handleGaugeCounter p m tags (Metric x) h slist) = emitted slist ++ [x]) /\
  (exists out,
     HandleSummary fmt_Sprint p ms tags metricName h slist = Done out /\
     map Metric (emitted out) =
       map Metric (emitted slist) ++
       [name +:+ "_count"; name +:+ "_sum"] ++ map (fun _ => name) (Summary_Quantile s)) /\
  (exists out,
     HandleHistogram fmt_Sprint p mh tags metricName h slist = Done out /\
     map Metric (emitted out) =
       map Metric (emitted slist) ++
       [name +:+ "_count"; name +:+ "_sum"; name +:+ "_bucket"] ++
       map (fun _ => name +:+ "_bucket") (Histogram_Bucket hist)).
Proof.
  intros Hm Hnan Hs Hh name. split; [|split].
  - eexists. split; [by apply handleGaugeCounter_emitted|]. cbn [Metric].
    assert (HasPrefix name (NamePrefix p) = true) as Hname.
    { subst name. destruct (HasPrefix metricName (NamePrefix p)) eqn:E;
        [exact E | apply HasPrefix_composed]. }
    repeat split.
    + by intros ->.
    + by intros ->.
    + exact Hname.
    + rewrite (handleGaugeCounter_emitted _ _ _ _ _ _ v Hm Hnan).
      fold name. by rewrite Hname.
  - destruct (HandleSummary_emitted p ms tags metricName h slist s Hs)
      as (out & Hout & Hem).
    exists out. split; [exact Hout|]. rewrite Hem.
    rewrite !BuildMetric_suffix by discriminate. rewrite BuildMetric_base.
    rewrite !map_app, map_map. reflexivity.
  - destruct (HandleHistogram_emitted p mh tags metricName h slist hist Hh)
      as (out & Hout & Hem).
    exists out. split; [exact Hout|]. rewrite Hem.
    rewrite !BuildMetric_suffix by discriminate.
    rewrite !map_app, map_map. reflexivity.
Qed.

Lemma bind_Done {A} (x : outcome A) : bind x Done = x.
Proof. by destruct x. Qed.

(** [Gather] on a snapshot of one family with one metric is the loop body
    on that metric. *)
Lemma Gather_one_metric ins mf m st :
  Metric_ mf = [m] ->
  Gather fmt_Sprint ins (Some [mf]) st = gatherMetric fmt_Sprint ins mf m st.
Proof.
  intros Hm. unfold Gather. cbn [forRange]. rewrite Hm. cbn [forRange].
  by rewrite !bind_Done.
Qed.

(** C6, as amended: every metric goes to exactly one strategy: kind
    SUMMARY to [HandleSummary], kind HISTOGRAM to [HandleHistogram], every
    other kind, recognised or not, to [handleGaugeCounter], which raises
    no error.  The fallback emits the raw numeric value as one sample when
    the metric carries a gauge, counter or untyped value that is not NaN;
    it emits nothing when that value is NaN or when the metric carries
    none of the three. *)
Theorem gatherMetric_dispatch ins mf m (st : heap * SampleList) :
  let tags := (makeLabels ins m st.1).1 in
  let h := (makeLabels ins m st.1).2 in
  (Metric_ mf = [m] ->
   Gather fmt_Sprint ins (Some [mf]) st = gatherMetric fmt_Sprint ins mf m st) /\
  (GetType mf = MetricType_SUMMARY ->
   gatherMetric fmt_Sprint ins mf m st
   = bind (HandleSummary fmt_Sprint ins m tags (GetName mf) h st.2)
       (fun slist => Done (h, slist))) /\
  (GetType mf = MetricType_HISTOGRAM ->
   gatherMetric fmt_Sprint ins mf m st
   = bind (HandleHistogram fmt_Sprint ins m tags (GetName mf) h st.2)
       (fun slist => Done (h, slist))) /\
  (GetType mf <> MetricType_SUMMARY -> GetType mf <> MetricType_HISTOGRAM ->
   gatherMetric fmt_Sprint ins mf m st
   = Done (h, handleGaugeCounter ins m tags (GetName mf) h st.2) /\
   (forall v, plain_metric m v -> IsNaN v = false ->
      exists x,
        emitted (handleGaugeCounter ins m tags (GetName mf) h st.2)
        = emitted st.2 ++ [x] /\ Value x = Float64 v) /\
   (forall v, plain_metric m v -> IsNaN v = true ->
      handleGaugeCounter ins m tags (GetName mf) h st.2 = st.2) /\
   (Gauge m = None -> Counter m = None -> Untyped m = None ->
      handleGaugeCounter ins m tags (GetName mf) h st.2 = st.2)).
Proof.
  intros tags h. subst tags h. split; [apply Gather_one_metric|].
  unfold gatherMetric.
  destruct (makeLabels ins m st.1) as [tags h]. cbn [fst snd].
  split; [|split].
  - intros Ht. by rewrite decide_True.
  - intros Ht. rewrite decide_False, decide_True; [done..|].
    rewrite Ht. discriminate.
  - intros Hs Hh. rewrite !decide_False by done. split; [done|].
    split; [|split].
    + intros v Hm Hnan. eexists.
      split; [by apply handleGaugeCounter_emitted|]. reflexivity.
    + intros v Hm Hnan. by apply (handleGaugeCounter_nan _ _ _ _ _ _ v).
    + apply handleGaugeCounter_no_payload.
Qed.

(** C9: the tag map that [makeLabels] returns is a new map, never an
    alias of the instance's map; it holds exactly the instance's label
    pairs; and an assignment into it changes neither the instance's stored
    tags nor the tags that a later call of [makeLabels] returns for
    another metric. *)
Theorem makeLabels_fresh_copy p m (h : heap) :
  (forall l, Labels p = Some l -> is_Some (h !! l)) ->
  let l := (makeLabels p m h).1 in
  let h' := (makeLabels p m h).2 in
  h !! l = None /\ Labels p <> Some l /\
  deref h' l = deref_nilable h (Labels p) /\
  (forall l', l' <> l -> h' !! l' = h !! l') /\
  forall key value m2,
    let h'' := store l key value h' in
    deref_nilable h'' (Labels p) = deref_nilable h (Labels p) /\
    (makeLabels p m2 h'').1 <> l /\
    deref (makeLabels p m2 h'').2 (makeLabels p m2 h'').1
    = deref_nilable h (Labels p).
Proof.
  intros Hl l h'.
  destruct (makeLabels_copy p m h Hl) as (_ & Hfresh & Hne & Hh').
  fold l in Hfresh, Hne, Hh'. fold h' in Hh'.
  split; [exact Hfresh|]. split; [exact Hne|].
  split; [rewrite Hh'; unfold deref; by rewrite lookup_total_insert_eq|].
  split; [intros l' Hl'; rewrite Hh'; by rewrite lookup_insert_ne|].
  intros key value m2 h''.
  assert (forall l0, Labels p = Some l0 -> l <> l0) as Hne' by congruence.
  assert (deref_nilable h'' (Labels p) = deref_nilable h (Labels p)) as Hkeep.
  { destruct (Labels p) as [l0|] eqn:Hp; [|done].
    subst h''. unfold deref_nilable, store, deref.
    rewrite lookup_total_insert_ne by auto.
    rewrite Hh'. rewrite lookup_total_insert_ne by auto. done. }
  assert (forall l0, Labels p = Some l0 -> is_Some (h'' !! l0)) as Hl''.
  { intros l0 Hp. subst h''. unfold store. rewrite lookup_insert_ne by auto.
    rewrite Hh'. rewrite lookup_insert_ne by auto. auto. }
  assert (is_Some (h'' !! l)) as Hall.
  { subst h''. unfold store. rewrite lookup_insert_eq. eauto. }
  destruct (makeLabels_copy p m2 h'' Hl'') as (_ & Hfresh2 & _ & Hh2).
  split; [exact Hkeep|]. split.
  - intros Heq. rewrite Heq in Hfresh2. rewrite Hfresh2 in Hall. by destruct Hall.
  - rewrite Hh2. unfold deref at 1. rewrite lookup_total_insert_eq. exact Hkeep.
Qed.

End MtailFacts.

(** ** The strategies on concrete metrics *)

Section MtailExamples.

Import Mtail Fixtures.

(** The histogram [request_latency] with two buckets gives five samples. *)
Lemma HandleHistogram_samples_witness :
  exists out,
    HandleHistogram sprint mtail_ins histogram_metric 1%positive
      "request_latency" heap0 [] = Done out /\
    map (fun x => (Metric x, Value x, types.Labels x !! "le")) (emitted out) =
      [("mtail_request_latency_count", Float64 20%float, None);
       ("mtail_request_latency_sum", Float64 3.5%float, None);
       ("mtail_request_latency_bucket", Float64 20%float, Some "+Inf");
       ("mtail_request_latency_bucket", Float64 5%float, Some "0.25");
       ("mtail_request_latency_bucket", Float64 12%float, Some "0.5")].
Proof.
  destruct (HandleHistogram_samples sprint mtail_ins histogram_metric 1%positive
              "request_latency" heap0 [] request_latency eq_refl)
    as (out & new & Hout & Hem & _ & Hnew).
  exists out. split; [exact Hout|].
  rewrite Hem, Hnew. vm_compute. reflexivity.
Defined.

(** The summary [rpc_duration] with one quantile gives three samples. *)
Lemma HandleSummary_samples_witness :
  exists out,
    HandleSummary sprint mtail_ins summary_metric 1%positive
      "mtail_rpc_duration" heap0 [] = Done out /\
    map (fun x => (Metric x, Value x, types.Labels x !! "quantile")) (emitted out) =
      [("mtail_rpc_duration_count", Float64 4%float, None);
       ("mtail_rpc_duration_sum", Float64 10%float, None);
       ("mtail_rpc_duration", Float64 2%float, Some "0.5")].
Proof.
  destruct (HandleSummary_samples sprint mtail_ins summary_metric 1%positive
              "mtail_rpc_duration" heap0 [] rpc_duration eq_refl)
    as (out & new & Hout & Hem & _ & Hnew).
  exists out. split; [exact Hout|].
  rewrite Hem, Hnew. vm_compute. reflexivity.
Defined.

(** A NaN gauge is dropped; the gauge 1.5 is emitted with its value. *)
Lemma plain_numeric_nan_drop_witness :
  emitted (handleGaugeCounter mtail_ins (gauge PrimFloat.nan) 1%positive "up" heap0 [])
  = emitted [] /\
  exists x,
    emitted (handleGaugeCounter mtail_ins (gauge 1.5%float) 1%positive "up" heap0 [])
    = emitted [] ++ [x] /\
    Value x = Float64 1.5%float.
Proof.
  split.
  - apply (plain_numeric_nan_drop mtail_ins (gauge PrimFloat.nan) 1%positive "up"
             heap0 [] PrimFloat.nan
             (plain_gauge (gauge PrimFloat.nan) PrimFloat.nan eq_refl)).
    reflexivity.
  - apply (plain_numeric_nan_drop mtail_ins (gauge 1.5%float) 1%positive "up"
             heap0 [] 1.5%float
             (plain_gauge (gauge 1.5%float) 1.5%float eq_refl)).
    reflexivity.
Defined.

(** The name [up] becomes [mtail_up], and [mtail_up] stays as it is. *)
Lemma name_prefix_composition_witness :
  exists x,
    emitted (handleGaugeCounter mtail_ins (gauge 1.5%float) 1%positive "up" heap0 [])
    = emitted [] ++ [x] /\
    (HasPrefix "up" "mtail_" = false -> Metric x = "mtail_up") /\
    emitted (handleGaugeCounter mtail_ins (gauge 1.5%float) 1%positive (Metric x) heap0 [])
    = emitted [] ++ [x].
Proof.
  destruct (name_prefix_composition sprint mtail_ins (gauge 1.5%float) 1%positive
              "up" heap0 [] 1.5%float summary_metric rpc_duration
              histogram_metric request_latency
              (plain_gauge (gauge 1.5%float) 1.5%float eq_refl)
              eq_refl eq_refl eq_refl)
    as [(x & Hx & _ & Hname & _ & Hidem) _].
  exists x. split; [exact Hx|]. split; [exact Hname | exact Hidem].
Defined.

(** A family of an unknown kind whose metric carries no gauge, counter or
    untyped value goes to the fallback, which emits no sample for it. *)
Lemma fallback_drops_unknown_kind :
  GetType unknown_family <> MetricType_SUMMARY /\
  GetType unknown_family <> MetricType_HISTOGRAM /\
  exists h,
    gatherMetric sprint mtail_ins unknown_family histogram_metric (heap0, [])
    = Done (h, []).
Proof.
  split; [discriminate|]. split; [discriminate|].
  eexists. vm_compute. reflexivity.
Defined.

(** On the heap that holds the instance's labels the returned map is a
    second map with the same pairs. *)
Lemma makeLabels_fresh_copy_witness :
  Labels mtail_ins <> Some (makeLabels mtail_ins no_payload heap0).1 /\
  deref (makeLabels mtail_ins no_payload heap0).2
    (makeLabels mtail_ins no_payload heap0).1 = labels.
Proof.
  assert (forall l, Labels mtail_ins = Some l -> is_Some (heap0 !! l)) as Hl.
  { intros l Heq. injection Heq as <-. exists labels. reflexivity. }
  destruct (makeLabels_fresh_copy mtail_ins no_payload heap0 Hl)
    as (_ & Hne & Hcopy & _).
  split; [exact Hne | exact Hcopy].
Defined.

End MtailExamples.

(** * Properties of the github input *)

Section SplitFacts.

Import Github.

Lemma substring_all (s : string) : String.substring 0 (String.length s) s = s.
Proof. induction s as [|c s IH]; simpl; congruence. Qed.

Lemma prefix_slash (c : ascii) (s : string) :
  String.prefix "/" (String c s) = if decide (c = "/"%char) then true else false.
Proof.
  cbn [String.prefix]. destruct (Ascii.ascii_dec "/" c) as [<-|Hne].
  - rewrite decide_True by done. by destruct s.
  - by rewrite decide_False.
Qed.

(** Where [index] finds the first slash, the string is the part before
    it, the slash and the part after it, and the part before it has no
    slash. *)
Lemma index_first_slash (s : string) (m : nat) :
  String.index 0 "/" s = Some m ->
  s = String.substring 0 m s +:+ "/" +:+
      String.substring (m + 1) (String.length s - (m + 1)) s /\
  String.index 0 "/" (String.substring 0 m s) = None.
Proof.
  revert m. induction s as [|c s IH]; intros m Hm; [discriminate|].
  cbn [String.index] in Hm. rewrite prefix_slash in Hm.
  destruct (decide (c = "/"%char)) as [->|Hc].
  - injection Hm as <-. simpl. rewrite Nat.sub_0_r, substring_all. done.
  - destruct (String.index 0 "/" s) as [m'|] eqn:Hs; [|discriminate].
    injection Hm as <-. destruct (IH m' eq_refl) as [Heq Hnone].
    split.
    + simpl. rewrite append_String. f_equal. exact Heq.
    + cbn [String.substring String.index]. rewrite prefix_slash.
      rewrite decide_False by done. by rewrite Hnone.
Qed.

Lemma splitRepositoryName_no_slash (name : string) :
  String.index 0 "/" name = None ->
  splitRepositoryName name
  = ("", "", Some (name +:+ " is not of format 'owner/repository'")).
Proof. intros Hn. unfold splitRepositoryName. simpl. by rewrite Hn. Qed.

Lemma splitRepositoryName_slash (name : string) (m : nat) :
  String.index 0 "/" name = Some m ->
  splitRepositoryName name
  = (String.substring 0 m name,
     String.substring (m + 1) (String.length name - (m + 1)) name, None).
Proof. intros Hn. unfold splitRepositoryName. simpl. by rewrite Hn. Qed.

End SplitFacts.

Section GithubFacts.

Import Github.

Variable World : Type.
Variable api_Get : World -> string -> string -> option Repository * World.
Variable api_Search : World -> string -> option Z * World.
Variable NewEnterpriseClient : string -> http_Client -> option Client.

Local Abbreviation run := (Github.run World api_Get api_Search).
Local Abbreviation step := (Github.step World api_Get api_Search NewEnterpriseClient).
Local Abbreviation search_query owner repo class :=
  ("repo:" +:+ owner +:+ "/" +:+ repo +:+ " is:pr is:" +:+ class).

(** [before t r]: the events [t] followed by the run [r]. *)
Local Abbreviation before t r := (t ++ r.1, r.2).

Lemma run_Log msg k w : run (Log msg k) w = before [EvLog msg] (run k w).
Proof. simpl. by destruct (Github.run _ _ _ k w). Qed.

Lemma run_PushSamples prefix fields tags k w :
  run (PushSamples prefix fields tags k) w
  = before [EvPush prefix fields tags] (run k w).
Proof. simpl. by destruct (Github.run _ _ _ k w). Qed.

Lemma run_Search_Issues q k w :
  run (Search_Issues q k) w
  = before [EvSearch q] (run (k (api_Search w q).1) (api_Search w q).2).
Proof.
  simpl. destruct (api_Search w q) as [r w1]. simpl.
  by destruct (Github.run _ _ _ (k r) w1).
Qed.

Lemma run_Repositories_Get owner repo k w :
  run (Repositories_Get owner repo k) w
  = before [EvGet owner repo]
      (run (k (api_Get w owner repo).1) (api_Get w owner repo).2).
Proof.
  simpl. destruct (api_Get w owner repo) as [r w1]. simpl.
  by destruct (Github.run _ _ _ (k r) w1).
Qed.

(** A goroutine for a malformed identifier logs the error and ends. *)
Lemma repoTask_malformed ins name :
  String.index 0 "/" name = None ->
  repoTask ins name = Log "E! splitRepositoryName" Ret.
Proof.
  intros Hn. unfold repoTask. by rewrite splitRepositoryName_no_slash.
Qed.

(** The class loop makes searches and log lines only, and hands its
    continuation a field map that differs from the initial one at the
    class keys only. *)
Lemma run_searchClasses owner repo classes fields k w :
  exists t fields' err w1,
    run (searchClasses owner repo classes fields k) w
    = before t (run (k fields' err) w1) /\
    Forall (fun e => is_search_or_log e = true) t /\
    forall key, (forall c, c ∈ classes -> key <> c +:+ "_pull_requests") ->
                fields' !! key = fields !! key.
Proof.
  revert fields w. induction classes as [|class classes IH]; intros fields w.
  - exists [], fields, false, w. simpl. split; [by destruct (Github.run _ _ _ _ _)|].
    split; [constructor | done].
  - cbn [searchClasses]. rewrite run_Search_Issues.
    destruct (api_Search w _) as [[total|] w1]; cbn [fst snd].
    + destruct (IH (<[class +:+ "_pull_requests" := Int total]> fields) w1)
        as (t & fields' & err & w2 & Hrun & Ht & Hf).
      exists (EvSearch (search_query owner repo class) :: t), fields', err, w2.
      rewrite Hrun. split; [done|]. split; [by constructor|].
      intros key Hkey. rewrite Hf.
      * rewrite lookup_insert_ne; [done|]. intros Heq. eapply Hkey; [|done]. left.
      * intros c Hc. apply Hkey. by right.
    + rewrite run_Log.
      exists [EvSearch (search_query owner repo class); EvLog "E! github search failed"],
        fields, true, w1.
      split; [done|]. split; [by repeat constructor | done].
Qed.

(** The loop over the additional fields makes searches and log lines
    only, always reaches its continuation, and hands it a field map that
    differs from the initial one at the two pull-request keys only. *)
Lemma run_additionalLoop owner repo additional fields k w :
  exists t fields' w1,
    run (additionalLoop owner repo additional fields k) w
    = before t (run (k fields') w1) /\
    Forall (fun e => is_search_or_log e = true) t /\
    forall key, key <> "open_pull_requests" -> key <> "closed_pull_requests" ->
                fields' !! key = fields !! key.
Proof.
  revert fields w. induction additional as [|field additional IH]; intros fields w.
  - exists [], fields, w. simpl. split; [by destruct (Github.run _ _ _ _ _)|].
    split; [constructor | done].
  - cbn [additionalLoop]. destruct (decide (field = "pull-requests")) as [_|_].
    + unfold getPullRequestFields.
      edestruct (run_searchClasses owner repo ["open"; "closed"] ∅) as
        (t & addFields & err & w1 & Hrun & Ht & Hf).
      rewrite Hrun. clear Hrun. destruct err.
      * rewrite run_Log.
        destruct (IH fields w1) as (t' & fields' & w2 & Hrun' & Ht' & Hf').
        rewrite Hrun'. cbn [fst snd].
        exists (t ++ EvLog "E! get PullRequestFields err" :: t'), fields', w2.
        split; [by rewrite <- !app_assoc|].
        split; [|done].
        apply Forall_app. split; [done|]. by constructor.
      * destruct (IH (addFields ∪ fields) w1) as (t' & fields' & w2 & Hrun' & Ht' & Hf').
        rewrite Hrun'. cbn [fst snd].
        exists (t ++ t'), fields', w2.
        split; [by rewrite <- !app_assoc|].
        split; [by apply Forall_app|].
        intros key Ho Hc. rewrite Hf' by done.
        apply lookup_union_r. rewrite Hf; [done|].
        intros c Hin. repeat (apply elem_of_cons in Hin as [->|Hin]); [done..|].
        by apply elem_of_nil in Hin.
    + rewrite run_Log.
      destruct (IH fields w) as (t' & fields' & w2 & Hrun' & Ht' & Hf').
      rewrite Hrun'. cbn [fst snd].
      exists (EvLog "E! unknown additional field" :: t'), fields', w2.
      split; [done|]. split; [by constructor | done].
Qed.

(** One pull-request entry of the additional fields, whatever follows
    it: a failed search of the open class ends the request at once, the
    closed class is not searched; a failed search of the closed class
    ends it as well; in both cases the fields are as before.  When both
    searches answer, the two counts are merged into the fields.  The loop
    then goes on with the entries that follow. *)
Lemma run_pull_requests owner repo additional fields k w :
  run (additionalLoop owner repo ("pull-requests" :: additional) fields k) w =
  match api_Search w (search_query owner repo "open") with
  | (None, w1) =>
      before [EvSearch (search_query owner repo "open");
              EvLog "E! github search failed";
              EvLog "E! get PullRequestFields err"]
        (run (additionalLoop owner repo additional fields k) w1)
  | (Some opened, w1) =>
      match api_Search w1 (search_query owner repo "closed") with
      | (None, w2) =>
          before [EvSearch (search_query owner repo "open");
                  EvSearch (search_query owner repo "closed");
                  EvLog "E! github search failed";
                  EvLog "E! get PullRequestFields err"]
            (run (additionalLoop owner repo additional fields k) w2)
      | (Some closed, w2) =>
          before [EvSearch (search_query owner repo "open");
                  EvSearch (search_query owner repo "closed")]
            (run (additionalLoop owner repo additional
                    (<["closed_pull_requests" := Int closed]>
                       (<["open_pull_requests" := Int opened]> ∅) ∪ fields) k) w2)
      end
  end.
Proof.
  cbn [additionalLoop]. rewrite decide_True by done.
  unfold getPullRequestFields. cbn [searchClasses].
  rewrite run_Search_Issues.
  destruct (api_Search w _) as [[opened|] w1]; cbn [fst snd].
  - rewrite run_Search_Issues.
    destruct (api_Search w1 _) as [[closed|] w2]; cbn [fst snd].
    + reflexivity.
    + by rewrite !run_Log.
  - by rewrite !run_Log.
Qed.

(** The keys of the primary fields are not the pull-request keys. *)
Lemma getFields_keys info key v :
  getFields info !! key = Some v ->
  key <> "open_pull_requests" /\ key <> "closed_pull_requests".
Proof.
  intros Hk. split; intros ->; vm_compute in Hk; discriminate.
Qed.

(** The goroutine of an entity whose record is fetched: the fetch comes
    first, searches and log lines follow, one push ends it, with the
    entity's tags and with every primary field in it. *)
Lemma run_repoTask_fetched ins name owner repo w info w1 :
  splitRepositoryName name = (owner, repo, None) ->
  api_Get w owner repo = (Some info, w1) ->
  exists t fields w2,
    run (repoTask ins name) w
    = (EvGet owner repo :: t ++ [EvPush inputName fields (getTags info)], w2) /\
    Forall (fun e => is_search_or_log e = true) t /\
    forall key v, getFields info !! key = Some v -> fields !! key = Some v.
Proof.
  intros Hsplit Hget. unfold repoTask. rewrite Hsplit.
  rewrite run_Repositories_Get, Hget. cbn [fst snd].
  edestruct (run_additionalLoop owner repo (AdditionalFields ins) (getFields info))
    as (t & fields & w2 & Hrun & Ht & Hf).
  rewrite Hrun. rewrite run_PushSamples. simpl.
  exists t, fields, w2. split; [done|]. split; [done|].
  intros key v Hk. destruct (getFields_keys _ _ _ Hk) as [Ho Hc].
  by rewrite Hf.
Qed.

(** *** The machine *)

(** With the client in place the caller adds the number of repositories
    to the wait group and enters the loop. *)
Lemma main_step_entry s c :
  main World s = MEntry -> githubClient (ins World s) = Some c ->
  main_step World NewEnterpriseClient s
  = Some {| ins := ins World s; main := MLoop (Repositories (ins World s));
            wg := wg World s + Z.of_nat (length (Repositories (ins World s)));
            goroutines := goroutines World s; world := world World s;
            events := events World s |}.
Proof. intros Hm Hc. unfold main_step. by rewrite Hm, Hc. Qed.

(** The loop starts one goroutine per repository, each on the work of its
    own repository, and then the caller returns: no step of the caller
    waits for the wait group. *)
Lemma main_loop_returns rest : forall s,
  main World s = MLoop rest ->
  rtc step s
    {| ins := ins World s; main := MReturned; wg := wg World s;
       goroutines :=
         goroutines World s ++ map (fun r => Running (repoTask (ins World s) r)) rest;
       world := world World s; events := events World s |}.
Proof.
  induction rest as [|repository rest IH]; intros s Hm.
  - apply rtc_once. left. unfold main_step. rewrite Hm. simpl.
    by rewrite app_nil_r.
  - eapply rtc_l.
    { left. unfold main_step. rewrite Hm. reflexivity. }
    etrans; [apply IH; reflexivity|]. simpl.
    rewrite <- app_assoc. reflexivity.
Qed.

Lemma Gather_returns i w c :
  githubClient i = Some c ->
  rtc step (init World i w)
    {| ins := i; main := MReturned; wg := Z.of_nat (length (Repositories i));
       goroutines := map (fun r => Running (repoTask i r)) (Repositories i);
       world := w; events := [] |}.
Proof.
  intros Hc. eapply rtc_l.
  { left. apply (main_step_entry _ c); [reflexivity | exact Hc]. }
  etrans; [apply main_loop_returns; reflexivity|]. reflexivity.
Qed.

Lemma goroutine_acts (s : State World) i p e p' w' :
  goroutines World s !! i = Some (Running p) ->
  act World api_Get api_Search p (world World s) = Some (e, p', w') ->
  step s {| ins := ins World s; main := main World s; wg := wg World s;
            goroutines := <[i := Running p']> (goroutines World s);
            world := w'; events := events World s ++ [e] |}.
Proof.
  intros Hi Ha. right. exists i. unfold goroutine_step. by rewrite Hi, Ha.
Qed.

(** A goroutine that is scheduled until its end performs the events of
    its uninterrupted run and then calls [wg.Done()]. *)
Lemma goroutine_runs p : forall s i,
  goroutines World s !! i = Some (Running p) ->
  rtc step s
    {| ins := ins World s; main := main World s; wg := wg World s - 1;
       goroutines := <[i := Exited]> (goroutines World s);
       world := (run p (world World s)).2;
       events := events World s ++ (run p (world World s)).1 |}.
Proof.
  induction p as [|msg k IH|owner repo k IH|q k IH|prefix fields tags k IH];
    intros s i Hi.
  - apply rtc_once. right. exists i. unfold goroutine_step. rewrite Hi. simpl.
    by rewrite app_nil_r.
  - eapply rtc_l; [by eapply (goroutine_acts s i _ (EvLog msg) k (world World s))|].
    etrans; [apply (IH _ i); simpl;
             apply list_lookup_insert_eq; by eapply lookup_lt_Some|].
    rewrite run_Log. simpl. rewrite list_insert_insert_eq.
    rewrite <- app_assoc. reflexivity.
  - destruct (api_Get (world World s) owner repo) as [r w1] eqn:Hget.
    eapply rtc_l; [eapply (goroutine_acts s i _ (EvGet owner repo) (k r) w1); [done|]; simpl;
                   by rewrite Hget|].
    etrans; [apply (IH r _ i); simpl;
             apply list_lookup_insert_eq; by eapply lookup_lt_Some|].
    rewrite run_Repositories_Get, Hget. simpl. rewrite list_insert_insert_eq.
    rewrite <- app_assoc. reflexivity.
  - destruct (api_Search (world World s) q) as [r w1] eqn:Hsearch.
    eapply rtc_l; [eapply (goroutine_acts s i _ (EvSearch q) (k r) w1); [done|]; simpl;
                   by rewrite Hsearch|].
    etrans; [apply (IH r _ i); simpl;
             apply list_lookup_insert_eq; by eapply lookup_lt_Some|].
    rewrite run_Search_Issues, Hsearch. simpl. rewrite list_insert_insert_eq.
    rewrite <- app_assoc. reflexivity.
  - eapply rtc_l; [by eapply (goroutine_acts s i _ (EvPush prefix fields tags) k (world World s))|].
    etrans; [apply (IH _ i); simpl;
             apply list_lookup_insert_eq; by eapply lookup_lt_Some|].
    rewrite run_PushSamples. simpl. rewrite list_insert_insert_eq.
    rewrite <- app_assoc. reflexivity.
Qed.

(** A step of one goroutine leaves the caller, the instance and every
    other goroutine as they are. *)
Lemma goroutine_step_frame i s s' :
  goroutine_step World api_Get api_Search i s = Some s' ->
  main World s' = main World s /\ ins World s' = ins World s /\
  forall j, j <> i -> goroutines World s' !! j = goroutines World s !! j.
Proof.
  unfold goroutine_step. intros Hs.
  destruct (goroutines World s !! i) as [[p|]|]; [|discriminate..].
  destruct (act World api_Get api_Search p (world World s)) as [[[e p'] w']|];
    injection Hs as <-; simpl; (split; [done|]; split; [done|]);
    intros j Hj; by rewrite list_lookup_insert_ne.
Qed.

(** *** Client creation *)

Lemma slice_short (token : string) :
  len token < 4 -> slice token 0 4 = Panic.
Proof.
  intros Hlen. unfold slice.
  replace (4 <=? len token) with false by (symmetry; apply Z.leb_gt; lia).
  by rewrite andb_false_r.
Qed.

Lemma slice_in_range (token : string) (lo hi : Z) :
  0 <= lo -> lo <= hi -> hi <= len token ->
  slice token lo hi
  = Done (String.substring (Z.to_nat lo) (Z.to_nat (hi - lo)) token).
Proof.
  intros H0 H1 H2. unfold slice.
  by rewrite (proj2 (Z.leb_le _ _) H0), (proj2 (Z.leb_le _ _) H1),
    (proj2 (Z.leb_le _ _) H2).
Qed.

(** C10: [Gather] is not total.  With a non-empty access token shorter
    than 4 bytes the slice [AccessToken[0:4]] is out of range, so the
    creation of the client panics instead of returning an error, and so
    does the first call of [Gather], which creates the client.  With a
    token of 4 bytes or more both slices are in range and the creation
    returns. *)
Theorem createGitHubClient_short_token_panics (i : Instance) (w : World) :
  (AccessToken i <> "" -> len (AccessToken i) < 4 ->
   slice (AccessToken i) 0 4 = Panic /\
   createGitHubClient NewEnterpriseClient i = Panic /\
   (githubClient i = None ->
    exists s', main_step World NewEnterpriseClient (init World i w) = Some s' /\
               main World s' = MPanicked)) /\
  (4 <= len (AccessToken i) ->
   exists head tail,
     slice (AccessToken i) 0 4 = Done head /\
     slice (AccessToken i) (len (AccessToken i) - 3) (len (AccessToken i)) = Done tail /\
     createGitHubClient NewEnterpriseClient i
     = Done (set_obfuscatedToken i (head +:+ "..." +:+ tail),
             newGithubClient NewEnterpriseClient i (oauthClient (AccessToken i)))).
Proof.
  split.
  - intros Hne Hlen.
    assert (createGitHubClient NewEnterpriseClient i = Panic) as Hpanic.
    { unfold createGitHubClient. cbn [AccessToken set_obfuscatedToken].
      rewrite decide_True by done. by rewrite slice_short. }
    split; [by apply slice_short|]. split; [exact Hpanic|].
    intros Hnil. eexists. unfold main_step. cbn [init main ins].
    rewrite Hnil, Hpanic. split; reflexivity.
  - intros Hlen. do 2 eexists.
    split; [apply slice_in_range; lia|].
    split; [apply slice_in_range; lia|].
    unfold createGitHubClient. cbn [AccessToken set_obfuscatedToken].
    assert (AccessToken i <> "") as Hne.
    { intros Heq. rewrite Heq in Hlen. unfold len in Hlen. simpl in Hlen. lia. }
    rewrite decide_True by done.
    rewrite !slice_in_range by lia. reflexivity.
Qed.

(** *** Entity identifiers *)

(** C7: an entity identifier parses into two parts, owner and resource,
    around its first delimiter: "octocat/Hello-World" gives owner
    "octocat" and resource "Hello-World".  An identifier without a
    delimiter, such as "badid", gives a parse error; its goroutine logs
    the error and ends, so it makes no request and pushes no sample.  The
    other entities are not affected: the caller starts one goroutine per
    identifier, a step of one goroutine leaves the others as they are, and
    each of them can run its own work to the end. *)
Theorem malformed_identifier_skipped :
  splitRepositoryName "octocat/Hello-World" = ("octocat", "Hello-World", None) /\
  (exists e, splitRepositoryName "badid" = ("", "", Some e)) /\
  (forall name m,
     String.index 0 "/" name = Some m ->
     exists owner repo,
       splitRepositoryName name = (owner, repo, None) /\
       name = owner +:+ "/" +:+ repo /\
       String.index 0 "/" owner = None) /\
  (forall name,
     String.index 0 "/" name = None ->
     (exists e, splitRepositoryName name = ("", "", Some e)) /\
     forall i w,
       run (repoTask i name) w = ([EvLog "E! splitRepositoryName"], w) /\
       pushed (run (repoTask i name) w).1 = [] /\
       fetches (run (repoTask i name) w).1 = []) /\
  (forall i w c,
     githubClient i = Some c ->
     rtc step (init World i w)
       {| ins := i; main := MReturned; wg := Z.of_nat (length (Repositories i));
          goroutines := map (fun r => Running (repoTask i r)) (Repositories i);
          world := w; events := [] |}) /\
  (forall n s s',
     goroutine_step World api_Get api_Search n s = Some s' ->
     forall j, j <> n -> goroutines World s' !! j = goroutines World s !! j) /\
  (forall s j p,
     goroutines World s !! j = Some (Running p) ->
     exists s',
       rtc step s s' /\
       goroutines World s' = <[j := Exited]> (goroutines World s) /\
       events World s' = events World s ++ (run p (world World s)).1).
Proof.
  split; [reflexivity|]. split; [eexists; reflexivity|].
  split; [|split; [|split; [|split]]].
  - intros name m Hm. do 2 eexists.
    split; [by apply splitRepositoryName_slash|].
    by apply index_first_slash.
  - intros name Hn. split; [eexists; by apply splitRepositoryName_no_slash|].
    intros i w. by rewrite repoTask_malformed.
  - intros i w c Hc. by apply (Gather_returns i w c).
  - intros n s s' Hs j Hj. by apply (goroutine_step_frame n s s' Hs).
  - intros s j p Hj. eexists. split; [by apply (goroutine_runs p s j)|]. done.
Qed.

(** *** Additional fields *)

(** C8, as amended: for an entity whose primary record is fetched, the
    additional-field searches come after that fetch, one state class
    after the other, and what they return is merged into the entity's
    fields.  When a search of one pull-request entry fails, the remaining
    state class of that entry is not searched and the entry adds no
    field; the loop goes on with the entries that follow.  In every case
    the goroutine ends with one push that carries the entity's tags and
    all its primary fields. *)
Theorem additional_fields_after_primary i name owner repo w info w1 :
  splitRepositoryName name = (owner, repo, None) ->
  api_Get w owner repo = (Some info, w1) ->
  (exists t fields w2,
     run (repoTask i name) w
     = (EvGet owner repo :: t ++ [EvPush inputName fields (getTags info)], w2) /\
     Forall (fun e => is_search_or_log e = true) t /\
     forall key v, getFields info !! key = Some v -> fields !! key = Some v) /\
  (forall additional fields k w',
     run (additionalLoop owner repo ("pull-requests" :: additional) fields k) w' =
     match api_Search w' (search_query owner repo "open") with
     | (None, w2) =>
         before [EvSearch (search_query owner repo "open");
                 EvLog "E! github search failed";
                 EvLog "E! get PullRequestFields err"]
           (run (additionalLoop owner repo additional fields k) w2)
     | (Some opened, w2) =>
         match api_Search w2 (search_query owner repo "closed") with
         | (None, w3) =>
             before [EvSearch (search_query owner repo "open");
                     EvSearch (search_query owner repo "closed");
                     EvLog "E! github search failed";
                     EvLog "E! get PullRequestFields err"]
               (run (additionalLoop owner repo additional fields k) w3)
         | (Some closed, w3) =>
             before [EvSearch (search_query owner repo "open");
                     EvSearch (search_query owner repo "closed")]
               (run (additionalLoop owner repo additional
                       (<["closed_pull_requests" := Int closed]>
                          (<["open_pull_requests" := Int opened]> ∅) ∪ fields) k) w3)
         end
     end) /\
  (AdditionalFields i = ["pull-requests"] ->
   (run (repoTask i name) w).1 =
   EvGet owner repo ::
   match api_Search w1 (search_query owner repo "open") with
   | (None, _) =>
       [EvSearch (search_query owner repo "open");
        EvLog "E! github search failed";
        EvLog "E! get PullRequestFields err";
        EvPush inputName (getFields info) (getTags info)]
   | (Some opened, w2) =>
       match api_Search w2 (search_query owner repo "closed") with
       | (None, _) =>
           [EvSearch (search_query owner repo "open");
            EvSearch (search_query owner repo "closed");
            EvLog "E! github search failed";
            EvLog "E! get PullRequestFields err";
            EvPush inputName (getFields info) (getTags info)]
       | (Some closed, _) =>
           [EvSearch (search_query owner repo "open");
            EvSearch (search_query owner repo "closed");
            EvPush inputName
              (<["closed_pull_requests" := Int closed]>
                 (<["open_pull_requests" := Int opened]> ∅) ∪ getFields info)
              (getTags info)]
       end
   end).
Proof.
  intros Hsplit Hget. split; [|split].
  - exact (run_repoTask_fetched i name owner repo w info w1 Hsplit Hget).
  - intros additional fields k w'. apply run_pull_requests.
  - intros Hadd. unfold repoTask. rewrite Hsplit.
    rewrite run_Repositories_Get, Hget. cbn [fst snd]. rewrite Hadd.
    rewrite run_pull_requests.
    destruct (api_Search w1 _) as [[opened|] w2].
    + destruct (api_Search w2 _) as [[closed|] w3]; reflexivity.
    + reflexivity.
Qed.

End GithubFacts.

(** ** The github input on concrete configurations *)

Section GithubExamples.

Import Github Fixtures.

(** C1: [Gather] can return while the work of an entity is still in
    flight.  With the one repository "octocat/Hello-World" the caller
    reaches its return with the wait group at 1, the goroutine not yet
    started and nothing pushed; the goroutine then runs, and its sample
    arrives after the return. *)
Theorem Gather_returns_with_task_in_flight :
  exists s s',
    rtc (Github.step nat api_Get api_Search NewEnterpriseClient)
      (init nat (github_ins ["octocat/Hello-World"] []) 1%nat) s /\
    main nat s = MReturned /\
    wg nat s = 1 /\
    goroutines nat s
    = [Running (repoTask (github_ins ["octocat/Hello-World"] []) "octocat/Hello-World")] /\
    pushed (events nat s) = [] /\
    rtc (Github.step nat api_Get api_Search NewEnterpriseClient) s s' /\
    main nat s' = MReturned /\
    wg nat s' = 0 /\
    goroutines nat s' = [Exited] /\
    pushed (events nat s')
    = [EvPush "jenkins" (getFields hello_world) (getTags hello_world)].
Proof.
  exists {| ins := github_ins ["octocat/Hello-World"] []; main := MReturned; wg := 1;
            goroutines :=
              [Running (repoTask (github_ins ["octocat/Hello-World"] [])
                          "octocat/Hello-World")];
            world := 1%nat; events := [] |}.
  eexists.
  split; [apply (Gather_returns nat api_Get api_Search NewEnterpriseClient
                   (github_ins ["octocat/Hello-World"] []) 1%nat client eq_refl)|].
  do 4 (split; [reflexivity|]).
  split; [eapply (goroutine_runs nat api_Get api_Search NewEnterpriseClient
                    (repoTask (github_ins ["octocat/Hello-World"] [])
                       "octocat/Hello-World") _ 0%nat); reflexivity|].
  do 3 (split; [reflexivity|]).
  vm_compute. reflexivity.
Qed.

(** With two pull-request entries and a remote API whose first search
    fails, the searches that remain for the entity are made all the same,
    and their counts are merged and pushed. *)
Lemma searches_go_on_after_failed_search :
  api_Search 0%nat "repo:octocat/Hello-World is:pr is:open" = (None, 1%nat) /\
  (Github.run nat api_Get api_Search
     (repoTask (github_ins ["octocat/Hello-World"] ["pull-requests"; "pull-requests"])
        "octocat/Hello-World") 0%nat).1
  = [EvGet "octocat" "Hello-World";
     EvSearch "repo:octocat/Hello-World is:pr is:open";
     EvLog "E! github search failed";
     EvLog "E! get PullRequestFields err";
     EvSearch "repo:octocat/Hello-World is:pr is:open";
     EvSearch "repo:octocat/Hello-World is:pr is:closed";
     EvPush "jenkins"
       (<["closed_pull_requests" := Int 7]>
          (<["open_pull_requests" := Int 7]> (getFields hello_world)))
       (getTags hello_world)].
Proof. split; [reflexivity|]. vm_compute. reflexivity. Defined.

(** With one pull-request entry and the same remote API the failed search
    of the open class ends the request; the primary fields are pushed. *)
Lemma additional_fields_after_primary_witness :
  (Github.run nat api_Get api_Search
     (repoTask (github_ins ["octocat/Hello-World"] ["pull-requests"])
        "octocat/Hello-World") 0%nat).1
  = [EvGet "octocat" "Hello-World";
     EvSearch "repo:octocat/Hello-World is:pr is:open";
     EvLog "E! github search failed";
     EvLog "E! get PullRequestFields err";
     EvPush inputName (getFields hello_world) (getTags hello_world)].
Proof.
  destruct (additional_fields_after_primary nat api_Get api_Search
              (github_ins ["octocat/Hello-World"] ["pull-requests"])
              "octocat/Hello-World" "octocat" "Hello-World" 0%nat hello_world 0%nat
              eq_refl eq_refl) as (_ & _ & Hone).
  exact (Hone eq_refl).
Defined.

(** The token "abc" makes the creation of the client panic; the token
    "ghp_0123456789" is obfuscated to "ghp_...789". *)
Lemma createGitHubClient_short_token_panics_witness :
  createGitHubClient NewEnterpriseClient (token_ins "abc") = Panic /\
  (exists s',
     main_step nat NewEnterpriseClient (init nat (token_ins "abc") 0%nat) = Some s' /\
     main nat s' = MPanicked) /\
  exists head tail,
    slice "ghp_0123456789" 0 4 = Done head /\
    slice "ghp_0123456789" (len "ghp_0123456789" - 3) (len "ghp_0123456789") = Done tail /\
    createGitHubClient NewEnterpriseClient (token_ins "ghp_0123456789")
    = Done (set_obfuscatedToken (token_ins "ghp_0123456789") (head +:+ "..." +:+ tail),
            newGithubClient NewEnterpriseClient (token_ins "ghp_0123456789")
              (oauthClient "ghp_0123456789")).
Proof.
  destruct (createGitHubClient_short_token_panics nat NewEnterpriseClient
              (token_ins "abc") 0%nat) as [Hshort _].
  destruct (Hshort ltac:(discriminate) ltac:(vm_compute; reflexivity))
    as (_ & Hpanic & Hgather).
  destruct (createGitHubClient_short_token_panics nat NewEnterpriseClient
              (token_ins "ghp_0123456789") 0%nat) as [_ Hlong].
  split; [exact Hpanic|]. split; [exact (Hgather eq_refl)|].
  apply Hlong. vm_compute. discriminate.
Defined.

End GithubExamples.

(** * Further properties of the mtail input *)

Section MtailMore.

Import Mtail MtailObs.

Variable fmt_Sprint : float -> string.

(** Whatever payloads a metric carries, [getNameAndValue] returns the
    empty map or one entry under the metric name whose value is no NaN. *)
Lemma getNameAndValue_cases (m : dto.Metric) (metricName : string) :
  getNameAndValue m metricName = ∅ \/
  exists v, IsNaN v = false /\
            getNameAndValue m metricName = {[ metricName := Float64 v ]}.
Proof.
  unfold getNameAndValue.
  destruct (Gauge m) as [g|]; [|destruct (Counter m) as [c|];
                                 [|destruct (Untyped m) as [u|]; [|by left]]].
  - destruct (IsNaN g) eqn:E; [by left|right; by exists g].
  - destruct (IsNaN c) eqn:E; [by left|right; by exists c].
  - destruct (IsNaN u) eqn:E; [by left|right; by exists u].
Qed.

Lemma handleGaugeCounter_pushes p (m : dto.Metric) tags metricName h slist :
  handleGaugeCounter p m tags metricName h slist = slist \/
  exists x v,
    handleGaugeCounter p m tags metricName h slist = PushFront x slist /\
    Value x = Float64 v /\ IsNaN v = false.
Proof.
  unfold handleGaugeCounter.
  destruct (getNameAndValue_cases m metricName) as [-> | (v & Hv & ->)].
  - left. by rewrite map_to_list_empty.
  - right. rewrite map_to_list_singleton. cbn [foldl].
    destruct (negb (HasPrefix metricName (NamePrefix p)));
      eexists; exists v; (split; [reflexivity|]); by split.
Qed.

(** X1: for any metric at all, whichever payloads it carries, the plain
    numeric path pushes nothing or exactly one sample, and a sample it
    pushes never has a NaN value. *)
Theorem plain_path_never_pushes_nan p (m : dto.Metric) tags metricName h slist :
  handleGaugeCounter p m tags metricName h slist = slist \/
  exists x v,
    emitted (handleGaugeCounter p m tags metricName h slist) = emitted slist ++ [x] /\
    Value x = Float64 v /\ IsNaN v = false.
Proof.
  destruct (handleGaugeCounter_pushes p m tags metricName h slist)
    as [Hnone | (x & v & Hpush & Hv & Hnan)]; [by left|].
  right. exists x, v. rewrite Hpush. by repeat split.
Qed.

(** X2: the label pairs of the upstream metric never reach the output:
    two metrics that differ in their labels only are gathered alike. *)
Theorem upstream_labels_ignored ins mf st labels labels' g c s u hist :
  gatherMetric fmt_Sprint ins mf
    {| Label := labels; Gauge := g; Counter := c; Summary_ := s;
       Untyped := u; Histogram_ := hist |} st
  = gatherMetric fmt_Sprint ins mf
      {| Label := labels'; Gauge := g; Counter := c; Summary_ := s;
         Untyped := u; Histogram_ := hist |} st.
Proof. reflexivity. Qed.

(** The metrics on which a strategy dereferences a nil payload. *)
Lemma HandleSummary_panics p m tags metricName h slist :
  HandleSummary fmt_Sprint p m tags metricName h slist = Panic <-> Summary_ m = None.
Proof. unfold HandleSummary. by destruct (Summary_ m). Qed.

Lemma HandleHistogram_panics p m tags metricName h slist :
  HandleHistogram fmt_Sprint p m tags metricName h slist = Panic <-> Histogram_ m = None.
Proof. unfold HandleHistogram. by destruct (Histogram_ m). Qed.

Lemma gatherMetric_panics ins mf m st :
  gatherMetric fmt_Sprint ins mf m st = Panic <->
  (GetType mf = MetricType_SUMMARY /\ Summary_ m = None) \/
  (GetType mf = MetricType_HISTOGRAM /\ Histogram_ m = None).
Proof.
  unfold gatherMetric. destruct (makeLabels ins m st.1) as [tags h].
  destruct (decide (GetType mf = MetricType_SUMMARY)) as [Hs|Hs].
  - destruct (HandleSummary fmt_Sprint ins m tags (GetName mf) h st.2) eqn:E; simpl.
    + split; [done|]. intros [[_ Hn]|[Hh _]].
      * apply (HandleSummary_panics ins m tags (GetName mf) h st.2) in Hn. congruence.
      * rewrite Hh in Hs. discriminate.
    + split; [|done]. intros _. left. split; [done|].
      by apply (HandleSummary_panics ins m tags (GetName mf) h st.2).
  - destruct (decide (GetType mf = MetricType_HISTOGRAM)) as [Hh|Hh].
    + destruct (HandleHistogram fmt_Sprint ins m tags (GetName mf) h st.2) eqn:E; simpl.
      * split; [done|]. intros [[? _]|[_ Hn]]; [done|].
        apply (HandleHistogram_panics ins m tags (GetName mf) h st.2) in Hn. congruence.
      * split; [|done]. intros _. right. split; [done|].
        by apply (HandleHistogram_panics ins m tags (GetName mf) h st.2).
    + split; [done|]. by intros [[? _]|[? _]].
Qed.

(** A loop panics when its body does on one of the elements, provided
    that whether the body panics does not depend on the state. *)
Lemma forRange_panics {A S} (body : A -> S -> outcome S) (bad : A -> Prop) :
  (forall a st, body a st = Panic <-> bad a) ->
  forall l st, forRange body l st = Panic <-> exists a, a ∈ l /\ bad a.
Proof.
  intros Hbody. induction l as [|a l IH]; intros st; cbn [forRange].
  - split; [done|]. intros (a & Ha & _). by apply elem_of_nil in Ha.
  - destruct (body a st) as [st'|] eqn:E; simpl.
    + rewrite IH. split.
      * intros (b & Hb & Hbad). exists b. split; [by right|done].
      * intros (b & Hb & Hbad). apply elem_of_cons in Hb as [->|Hb].
        -- apply Hbody with (st := st) in Hbad. congruence.
        -- by exists b.
    + split; [|done]. intros _. exists a. split; [by left|]. by apply (Hbody a st).
Qed.

(** X3: [Gather] panics exactly on the snapshots that hold a metric of a
    SUMMARY family without a summary payload or a metric of a HISTOGRAM
    family without a histogram payload; on every other snapshot, and on a
    failed snapshot, it returns. *)
Theorem Gather_panics_iff ins (mfs : list dto.MetricFamily) st :
  Gather fmt_Sprint ins None st = Done st /\
  (Gather fmt_Sprint ins (Some mfs) st = Panic <->
   exists mf m,
     mf ∈ mfs /\ m ∈ Metric_ mf /\
     ((GetType mf = MetricType_SUMMARY /\ Summary_ m = None) \/
      (GetType mf = MetricType_HISTOGRAM /\ Histogram_ m = None))).
Proof.
  split; [reflexivity|]. unfold Gather.
  rewrite (forRange_panics _
             (fun mf => exists m, m ∈ Metric_ mf /\
                ((GetType mf = MetricType_SUMMARY /\ Summary_ m = None) \/
                 (GetType mf = MetricType_HISTOGRAM /\ Histogram_ m = None)))).
  - split.
    + intros (mf & Hmf & m & Hm & Hbad). by exists mf, m.
    + intros (mf & m & Hmf & Hm & Hbad). exists mf. split; [done|]. by exists m.
  - intros mf st'. apply forRange_panics. intros m st''. apply gatherMetric_panics.
Qed.

(** [makeLabels] adds one map at a location that was free and touches
    nothing else. *)
Lemma makeLabels_extends p m (h : heap) :
  h !! (makeLabels p m h).1 = None /\
  exists X, (makeLabels p m h).2 = <[(makeLabels p m h).1 := X]> h.
Proof.
  unfold makeLabels. cbn [fst snd]. split.
  - apply not_elem_of_dom, is_fresh.
  - eexists. rewrite copy_loop by (rewrite lookup_insert_eq; eauto).
    by rewrite insert_insert_eq.
Qed.

Lemma makeLabels_subseteq p m (h : heap) : h ⊆ (makeLabels p m h).2.
Proof.
  destruct (makeLabels_extends p m h) as (Hfree & X & ->).
  by apply insert_subseteq.
Qed.

Lemma grows_refl st : grows st st.
Proof. split; [done|]. exists []. by rewrite app_nil_r. Qed.

Lemma grows_trans st1 st2 st3 : grows st1 st2 -> grows st2 st3 -> grows st1 st3.
Proof.
  intros [Hh1 (n1 & Hn1)] [Hh2 (n2 & Hn2)]. split; [by etrans|].
  exists (n1 ++ n2). by rewrite Hn2, Hn1, app_assoc.
Qed.

Lemma handleGaugeCounter_grows p m tags metricName (h : heap) slist :
  exists new,
    emitted (handleGaugeCounter p m tags metricName h slist) = emitted slist ++ new.
Proof.
  destruct (handleGaugeCounter_pushes p m tags metricName h slist)
    as [-> | (x & v & -> & _)].
  - exists []. by rewrite app_nil_r.
  - by exists [x].
Qed.

Lemma gatherMetric_grows ins mf m st st' :
  gatherMetric fmt_Sprint ins mf m st = Done st' -> grows st st'.
Proof.
  unfold gatherMetric.
  pose proof (makeLabels_subseteq ins m st.1) as Hsub.
  destruct (makeLabels ins m st.1) as [tags h]. cbn [snd] in Hsub.
  destruct (decide (GetType mf = MetricType_SUMMARY)) as [Hs|Hs].
  - destruct (Summary_ m) as [s|] eqn:Hsum.
    + destruct (HandleSummary_emitted fmt_Sprint ins m tags (GetName mf) h st.2 s Hsum)
        as (out & -> & Hem).
      simpl. intros [= <-]. split; [done|]. eexists. exact Hem.
    + apply (HandleSummary_panics ins m tags (GetName mf) h st.2) in Hsum.
      by rewrite Hsum.
  - destruct (decide (GetType mf = MetricType_HISTOGRAM)) as [Hh|Hh].
    + destruct (Histogram_ m) as [hist|] eqn:Hhist.
      * destruct (HandleHistogram_emitted fmt_Sprint ins m tags (GetName mf) h st.2
                    hist Hhist) as (out & -> & Hem).
        simpl. intros [= <-]. split; [done|]. eexists. exact Hem.
      * apply (HandleHistogram_panics ins m tags (GetName mf) h st.2) in Hhist.
        by rewrite Hhist.
    + intros [= <-]. split; [done|]. apply handleGaugeCounter_grows.
Qed.

Lemma forRange_grows {A} (body : A -> heap * SampleList -> outcome (heap * SampleList)) :
  (forall a st st', body a st = Done st' -> grows st st') ->
  forall l st st', forRange body l st = Done st' -> grows st st'.
Proof.
  intros Hbody. induction l as [|a l IH]; intros st st'; cbn [forRange].
  - intros [= <-]. apply grows_refl.
  - destruct (body a st) as [st1|] eqn:E; [|done]. simpl. intros Hl.
    eapply grows_trans; [by eapply Hbody | by eapply IH].
Qed.

(** X4: a call of [Gather] that returns has only added to its
    surroundings: every sample that was in the sink is still there, in
    the same order and before the new ones, every map that was on the
    heap is unchanged, and so are the labels of the instance. *)
Theorem Gather_only_adds ins snapshot (h h' : heap) (slist out : SampleList) :
  Gather fmt_Sprint ins snapshot (h, slist) = Done (h', out) ->
  (exists new, emitted out = emitted slist ++ new) /\
  (forall l x, h !! l = Some x -> h' !! l = Some x) /\
  ((forall l, Labels ins = Some l -> is_Some (h !! l)) ->
   deref_nilable h' (Labels ins) = deref_nilable h (Labels ins)).
Proof.
  intros HG.
  assert (grows (h, slist) (h', out)) as [Hsub Hnew].
  { destruct snapshot as [mfs|]; [|injection HG as <- <-; apply grows_refl].
    unfold Gather in HG. revert HG. apply forRange_grows.
    intros mf. apply forRange_grows. intros m. apply gatherMetric_grows. }
  cbn [fst snd] in Hsub, Hnew. split; [exact Hnew|].
  assert (forall l x, h !! l = Some x -> h' !! l = Some x) as Hkeep.
  { intros l x Hx. by eapply lookup_weaken. }
  split; [exact Hkeep|].
  intros Hwf. destruct (Labels ins) as [l|]; [|done].
  destruct (Hwf l eq_refl) as [x Hx]. unfold deref_nilable, deref.
  by rewrite (lookup_total_correct _ _ _ Hx), (lookup_total_correct _ _ _ (Hkeep _ _ Hx)).
Qed.

(** *** The order of the samples *)

Lemma subseteq_labels ins (h h' : heap) :
  h ⊆ h' -> labels_allocated ins h ->
  labels_allocated ins h' /\
  deref_nilable h' (Labels ins) = deref_nilable h (Labels ins).
Proof.
  intros Hsub Hwf. split.
  - intros l Hl. destruct (Hwf l Hl) as [x Hx]. exists x. by eapply lookup_weaken.
  - destruct (Labels ins) as [l|] eqn:Hl; [|done].
    destruct (Hwf l Hl) as [x Hx]. unfold deref_nilable, deref.
    rewrite (lookup_total_correct _ _ _ Hx).
    apply lookup_total_correct. by eapply lookup_weaken.
Qed.

Lemma makeLabels_deref ins m (h : heap) :
  labels_allocated ins h ->
  deref (makeLabels ins m h).2 (makeLabels ins m h).1 = deref_nilable h (Labels ins).
Proof.
  intros Hwf. destruct (makeLabels_copy ins m h Hwf) as (_ & _ & _ & ->).
  unfold deref. by rewrite lookup_total_insert_eq.
Qed.

Lemma handleGaugeCounter_alone p m t1 t2 metricName (h1 h2 : heap) slist :
  deref h1 t1 = deref h2 t2 ->
  emitted (handleGaugeCounter p m t1 metricName h1 slist)
  = emitted slist ++ emitted (handleGaugeCounter p m t2 metricName h2 []).
Proof.
  intros Hd. unfold handleGaugeCounter.
  destruct (getNameAndValue_cases m metricName) as [-> | (v & _ & ->)].
  - rewrite map_to_list_empty. cbn [foldl]. by rewrite app_nil_r.
  - rewrite map_to_list_singleton. cbn [foldl]. rewrite Hd.
    by destruct (negb (HasPrefix metricName (NamePrefix p))).
Qed.

(** What a metric adds to the sink is what it gives on an empty sink, on
    any heap on which the instance has the same labels. *)
Lemma gatherMetric_alone ins mf m (h1 h2 : heap) slist st' :
  labels_allocated ins h1 -> labels_allocated ins h2 ->
  deref_nilable h1 (Labels ins) = deref_nilable h2 (Labels ins) ->
  gatherMetric fmt_Sprint ins mf m (h1, slist) = Done st' ->
  exists st2,
    gatherMetric fmt_Sprint ins mf m (h2, []) = Done st2 /\
    emitted st'.2 = emitted slist ++ emitted st2.2.
Proof.
  intros Hwf1 Hwf2 Heq. unfold gatherMetric. cbn [fst snd].
  pose proof (makeLabels_deref ins m h1 Hwf1) as Hd1.
  pose proof (makeLabels_deref ins m h2 Hwf2) as Hd2.
  destruct (makeLabels ins m h1) as [t1 h1'].
  destruct (makeLabels ins m h2) as [t2 h2']. cbn [fst snd] in Hd1, Hd2.
  assert (deref h1' t1 = deref h2' t2) as Hd by congruence.
  destruct (decide (GetType mf = MetricType_SUMMARY)) as [Hs|Hs].
  - destruct (Summary_ m) as [s|] eqn:Hsum.
    + destruct (HandleSummary_emitted fmt_Sprint ins m t1 (GetName mf) h1' slist s Hsum)
        as (o1 & -> & Hem1).
      destruct (HandleSummary_emitted fmt_Sprint ins m t2 (GetName mf) h2' [] s Hsum)
        as (o2 & -> & Hem2).
      simpl. intros [= <-]. eexists. split; [reflexivity|]. cbn [snd].
      rewrite Hem1, Hem2, Hd. reflexivity.
    + apply (HandleSummary_panics ins m t1 (GetName mf) h1' slist) in Hsum.
      by rewrite Hsum.
  - destruct (decide (GetType mf = MetricType_HISTOGRAM)) as [Hh|Hh].
    + destruct (Histogram_ m) as [hist|] eqn:Hhist.
      * destruct (HandleHistogram_emitted fmt_Sprint ins m t1 (GetName mf) h1' slist
                    hist Hhist) as (o1 & -> & Hem1).
        destruct (HandleHistogram_emitted fmt_Sprint ins m t2 (GetName mf) h2' []
                    hist Hhist) as (o2 & -> & Hem2).
        simpl. intros [= <-]. eexists. split; [reflexivity|]. cbn [snd].
        rewrite Hem1, Hem2, Hd. reflexivity.
      * apply (HandleHistogram_panics ins m t1 (GetName mf) h1' slist) in Hhist.
        by rewrite Hhist.
    + intros [= <-]. eexists. split; [reflexivity|]. cbn [snd].
      by apply handleGaugeCounter_alone.
Qed.

(** The samples that one metric of a family gives on the heap [h] and an
    empty sink. *)
Local Abbreviation alone ins h mf m :=
  (match gatherMetric fmt_Sprint ins mf m (h, []) with
   | Done st => emitted st.2
   | Panic => []
   end).

Lemma metrics_in_order ins (h : heap) mf : forall metrics hc slist st',
  labels_allocated ins h -> labels_allocated ins hc ->
  deref_nilable hc (Labels ins) = deref_nilable h (Labels ins) ->
  forRange (gatherMetric fmt_Sprint ins mf) metrics (hc, slist) = Done st' ->
  labels_allocated ins st'.1 /\
  deref_nilable st'.1 (Labels ins) = deref_nilable h (Labels ins) /\
  emitted st'.2 = emitted slist ++ concat (map (fun m => alone ins h mf m) metrics).
Proof.
  induction metrics as [|m metrics IH]; intros hc slist st' Hwf Hwfc Heq;
    cbn [forRange].
  - intros [= <-]. cbn [fst snd map concat]. by rewrite app_nil_r.
  - destruct (gatherMetric fmt_Sprint ins mf m (hc, slist)) as [[h1 sl1]|] eqn:E;
      [|done]. simpl. intros Hrest.
    destruct (gatherMetric_alone ins mf m hc h slist (h1, sl1) Hwfc Hwf Heq E)
      as (st2 & Halone & Hem).
    destruct (gatherMetric_grows ins mf m _ _ E) as [Hsub _]. cbn [fst] in Hsub.
    destruct (subseteq_labels ins hc h1 Hsub Hwfc) as [Hwf1 Heq1].
    destruct (IH h1 sl1 st' Hwf Hwf1 ltac:(congruence) Hrest) as (Hw & Hd & Hout).
    split; [exact Hw|]. split; [exact Hd|].
    rewrite Hout. cbn [snd] in Hem. rewrite Hem. cbn [map concat].
    rewrite Halone. by rewrite <- !app_assoc.
Qed.

Lemma families_in_order ins (h : heap) : forall mfs hc slist st',
  labels_allocated ins h -> labels_allocated ins hc ->
  deref_nilable hc (Labels ins) = deref_nilable h (Labels ins) ->
  forRange (fun mf => forRange (gatherMetric fmt_Sprint ins mf) (Metric_ mf)) mfs
    (hc, slist) = Done st' ->
  emitted st'.2
  = emitted slist ++
    concat (map (fun mf => concat (map (fun m => alone ins h mf m) (Metric_ mf))) mfs).
Proof.
  induction mfs as [|mf mfs IH]; intros hc slist st' Hwf Hwfc Heq; cbn [forRange].
  - intros [= <-]. cbn [snd map concat]. by rewrite app_nil_r.
  - destruct (forRange (gatherMetric fmt_Sprint ins mf) (Metric_ mf) (hc, slist))
      as [[h1 sl1]|] eqn:E; [|done]. simpl. intros Hrest.
    destruct (metrics_in_order ins h mf _ _ _ _ Hwf Hwfc Heq E) as (Hw & Hd & Hout).
    cbn [fst snd] in Hw, Hd, Hout.
    rewrite (IH h1 sl1 st' Hwf Hw Hd Hrest), Hout. cbn [map concat].
    by rewrite <- !app_assoc.
Qed.

(** X5: the samples that a returning [Gather] adds are the samples of
    its metrics in the order of the snapshot, family after family and
    metric after metric, and each metric adds what it would give alone
    on the initial heap and an empty sink. *)
Theorem Gather_in_snapshot_order ins mfs (h h' : heap) (slist out : SampleList) :
  labels_allocated ins h ->
  Gather fmt_Sprint ins (Some mfs) (h, slist) = Done (h', out) ->
  emitted out
  = emitted slist ++
    concat (map (fun mf => concat (map (fun m => alone ins h mf m) (Metric_ mf))) mfs).
Proof.
  intros Hwf HG.
  exact (families_in_order ins h mfs h slist (h', out) Hwf Hwf eq_refl HG).
Qed.

End MtailMore.

(** * The life cycle of an mtail instance *)

Section InitFacts.

Import MtailInit.

Variable Registry : Type.
Variable Version : string.
Variable GetRegistry : contexts -> option positive -> Option -> Registry + string.

Local Abbreviation Init := (MtailInit.Init Registry Version GetRegistry).
Local Abbreviation buildOption := (MtailInit.buildOption Registry Version).
Local Abbreviation empty_config ins :=
  (len (Progs Registry ins) = 0 \/ length (Logs Registry ins) = 0%nat).

(** X6: [Init] returns [ErrInstancesEmpty] exactly when the programs
    setting is the empty string or no log is configured, and it then
    leaves the instance and the contexts as they were: no context is
    made and no registry is asked for. *)
Theorem Init_rejects_empty_config ins w ins' w' :
  Init ins w = Done (Some ErrInstancesEmpty, ins', w') <->
  empty_config ins /\ ins' = ins /\ w' = w.
Proof.
  unfold MtailInit.Init.
  destruct (decide (empty_config ins)) as [He|He].
  - split; [by intros [= <- <-]|by intros (_ & -> & ->)].
  - split; [|by intros [? _]].
    destruct (cancel Registry ins) as [c|] eqn:Hc; cbn [ctx cancel set_context];
      destruct (GetRegistry _ _ _); simpl; rewrite ?Hc; simpl; intros [=].
Qed.

(** X7: the first [Init] of an instance with a usable configuration
    makes exactly one new context and stores it with its cancel function.
    The context is live after [Init] when the registry was obtained, and
    cancelled when it was not; the registry is stored in the first case
    only; the contexts that existed are untouched. *)
Theorem Init_first_makes_one_context ins (w : contexts) :
  ~ empty_config ins -> cancel Registry ins = None ->
  exists c err ins' w',
    w !! c = None /\
    Init ins w = Done (err, ins', w') /\
    ctx Registry ins' = Some c /\ cancel Registry ins' = Some c /\
    (forall c', c' <> c -> w' !! c' = w !! c') /\
    (err = None -> w' !! c = Some false /\
       exists registry,
         GetRegistry (<[c := false]> w) (Some c) (buildOption ins) = inl registry /\
         m Registry ins' = Some registry) /\
    (err <> None -> w' !! c = Some true /\ m Registry ins' = m Registry ins).
Proof.
  intros He Hc. exists (fresh (dom w)).
  assert (w !! fresh (dom w) = None) as Hfresh by apply not_elem_of_dom, is_fresh.
  unfold MtailInit.Init. rewrite decide_False by done. rewrite Hc.
  cbn [ctx cancel set_context].
  destruct (GetRegistry _ _ _) as [registry|msg] eqn:HG; simpl;
    do 3 eexists; (split; [exact Hfresh|]); (split; [reflexivity|]);
    (split; [reflexivity|]); (split; [reflexivity|]).
  - split; [intros c' Hc'; by rewrite lookup_insert_ne|].
    split; [|done]. intros _. split; [by rewrite lookup_insert_eq|].
    exists registry. split; reflexivity.
  - split; [intros c' Hc'; unfold cancel_context; by rewrite !lookup_insert_ne|].
    split; [done|]. intros _. unfold cancel_context.
    split; [by rewrite lookup_insert_eq | reflexivity].
Qed.

(** X8: [Init] on an instance that holds a cancel function makes no new
    context: it cancels the stored one and asks for the registry under
    the context the instance already has.  Whether it then succeeds or
    fails, the stored context is cancelled afterwards. *)
Theorem Init_again_cancels_its_context ins (w : contexts) c :
  ~ empty_config ins -> cancel Registry ins = Some c ->
  exists err ins',
    Init ins w = Done (err, ins', <[c := true]> w) /\
    ctx Registry ins' = ctx Registry ins /\ cancel Registry ins' = Some c /\
    match GetRegistry (<[c := true]> w) (ctx Registry ins) (buildOption ins) with
    | inl registry => err = None /\ m Registry ins' = Some registry
    | inr msg => err = Some (RegistryError msg) /\ m Registry ins' = m Registry ins
    end.
Proof.
  intros He Hc. unfold MtailInit.Init. rewrite decide_False by done. rewrite Hc.
  unfold cancel_context.
  destruct (GetRegistry _ _ _) as [registry|msg]; simpl.
  - do 2 eexists. split; [reflexivity|]. by repeat split.
  - rewrite Hc. simpl. unfold cancel_context. rewrite insert_insert_eq.
    do 2 eexists. split; [reflexivity|]. by repeat split.
Qed.

(** X9: [Init] never panics.  [Drop] after it panics exactly when the
    instance held no cancel function and [Init] rejected the
    configuration, since no cancel function is stored then; in every
    other case [Drop] cancels the stored context. *)
Theorem Drop_after_Init ins (w : contexts) :
  exists err ins' w',
    Init ins w = Done (err, ins', w') /\
    (Drop Registry ins' w' = Panic <->
     cancel Registry ins = None /\ empty_config ins) /\
    (forall c, cancel Registry ins' = Some c ->
       exists w'', Drop Registry ins' w' = Done w'' /\ w'' !! c = Some true).
Proof.
  assert (forall (i : Instance Registry) (v : contexts) c,
            cancel Registry i = Some c ->
            exists w'', Drop Registry i v = Done w'' /\ w'' !! c = Some true) as Hdrop.
  { intros i v c Hc. unfold Drop. rewrite Hc. eexists. split; [reflexivity|].
    unfold cancel_context. by rewrite lookup_insert_eq. }
  unfold MtailInit.Init.
  destruct (decide (empty_config ins)) as [He|He].
  - do 3 eexists. split; [reflexivity|]. split; [|apply Hdrop].
    unfold Drop. destruct (cancel Registry ins); simpl; split; try done.
    by intros [? _].
  - destruct (cancel Registry ins) as [c|] eqn:Hc.
    + destruct (GetRegistry _ _ _) as [registry|msg]; simpl; rewrite ?Hc; simpl;
        do 3 eexists; (split; [reflexivity|]); (split; [|apply Hdrop]);
        unfold Drop; cbn [cancel set_m]; rewrite Hc; simpl;
        (split; [done|by intros [? _]]).
    + cbn [ctx cancel set_context].
      destruct (GetRegistry _ _ _) as [registry|msg]; simpl;
        do 3 eexists; (split; [reflexivity|]); (split; [|apply Hdrop]);
        unfold Drop; simpl; (split; [done|by intros [_ ?]]).
Qed.

(** X10: the five numeric settings of the instance never reach the
    option value: each option field is its default when the setting is 0
    and stays 0 when a value is configured. *)
Theorem buildOption_drops_configured_values ins :
  let opt := buildOption ins in
  Opt_PollLogInterval opt
  = (if decide (PollLogInterval Registry ins = 0) then 250000000 else 0) /\
  Opt_PollInterval opt
  = (if decide (PollInterval Registry ins = 0) then 250000000 else 0) /\
  Opt_MetricPushInterval opt
  = (if decide (MetricPushInterval Registry ins = 0) then 60000000000 else 0) /\
  Opt_MaxRegexpLen opt
  = (if decide (MaxRegexpLen Registry ins = 0) then 1024 else 0) /\
  Opt_MaxRecursionDepth opt
  = (if decide (MaxRecursionDepth Registry ins = 0) then 100 else 0) /\
  Opt_PollLogInterval opt <> PollLogInterval Registry ins /\
  Opt_PollInterval opt <> PollInterval Registry ins /\
  Opt_MetricPushInterval opt <> MetricPushInterval Registry ins /\
  Opt_MaxRegexpLen opt <> MaxRegexpLen Registry ins /\
  Opt_MaxRecursionDepth opt <> MaxRecursionDepth Registry ins.
Proof.
  intros opt. subst opt. unfold MtailInit.buildOption.
  cbn [Opt_PollLogInterval Opt_PollInterval Opt_MetricPushInterval
       Opt_MaxRegexpLen Opt_MaxRecursionDepth].
  repeat split; try reflexivity;
    case_decide as H; unfold Millisecond, Minute; try rewrite H; try lia; congruence.
Qed.

End InitFacts.

(** * Further properties of the github input *)

Section SplitMore.

Import Github.

Lemma length_append (s t : string) :
  String.length (s +:+ t) = (String.length s + String.length t)%nat.
Proof. induction s as [|c s IH]; [done|]. rewrite append_String. simpl. by rewrite IH. Qed.

Lemma substring_prefix (s t : string) :
  String.substring 0 (String.length s) (s +:+ t) = s.
Proof.
  induction s as [|c s IH]; [by destruct t|].
  rewrite append_String. simpl. by rewrite IH.
Qed.

Lemma substring_skip (s t : string) (n m : nat) :
  String.substring (String.length s + n) m (s +:+ t) = String.substring n m t.
Proof. induction s as [|c s IH]; [done|]. rewrite append_String. simpl. exact IH. Qed.

Lemma index_slash_after (owner rest : string) :
  String.index 0 "/" owner = None ->
  String.index 0 "/" (owner +:+ "/" +:+ rest) = Some (String.length owner).
Proof.
  induction owner as [|c owner IH]; intros Hn.
  - rewrite append_empty_l. change ("/" +:+ rest) with (String "/" rest).
    cbn [String.index]. rewrite prefix_slash. by rewrite decide_True.
  - cbn [String.index] in Hn. rewrite prefix_slash in Hn.
    destruct (decide (c = "/"%char)) as [->|Hc]; [discriminate|].
    destruct (String.index 0 "/" owner) as [k|] eqn:Ho; [discriminate|].
    rewrite append_String. cbn [String.index]. rewrite prefix_slash.
    rewrite decide_False by done. by rewrite IH.
Qed.

(** X11: joining an owner without a slash and any resource by a slash
    and splitting the result gives the two parts back.  The resource may
    hold slashes itself, and either part may be empty: such identifiers
    are accepted. *)
Theorem split_of_join (owner repo : string) :
  String.index 0 "/" owner = None ->
  splitRepositoryName (owner +:+ "/" +:+ repo) = (owner, repo, None).
Proof.
  intros Hn.
  rewrite (splitRepositoryName_slash _ _ (index_slash_after owner repo Hn)).
  rewrite substring_prefix, substring_skip, !length_append.
  change (String.length "/") with 1%nat.
  replace (String.length owner + (1 + String.length repo) - (String.length owner + 1))%nat
    with (String.length repo) by lia.
  change ("/" +:+ repo) with (String "/" repo). simpl.
  by rewrite substring_all.
Qed.

End SplitMore.

Section GithubMore.

Import Github GithubObs.

Variable World : Type.
Variable api_Get : World -> string -> string -> option Repository * World.
Variable api_Search : World -> string -> option Z * World.
Variable NewEnterpriseClient : string -> http_Client -> option Client.

Local Abbreviation run := (Github.run World api_Get api_Search).
Local Abbreviation step := (Github.step World api_Get api_Search NewEnterpriseClient).
Local Abbreviation search_query owner repo class :=
  ("repo:" +:+ owner +:+ "/" +:+ repo +:+ " is:pr is:" +:+ class).

Lemma pushed_app t1 t2 : pushed (t1 ++ t2) = pushed t1 ++ pushed t2.
Proof. apply List.filter_app. Qed.

Lemma fetches_app t1 t2 : fetches (t1 ++ t2) = fetches t1 ++ fetches t2.
Proof. apply List.filter_app. Qed.

Lemma pushed_search_or_log t :
  Forall (fun e => is_search_or_log e = true) t -> pushed t = [].
Proof.
  induction 1 as [|e t He _ IH]; [done|].
  unfold pushed in *. simpl. rewrite IH. by destruct e.
Qed.

Lemma entries_cons_pull_requests additional :
  pull_requests_entries ("pull-requests" :: additional)
  = S (pull_requests_entries additional).
Proof. reflexivity. Qed.

Lemma entries_cons_other field additional :
  field <> "pull-requests" ->
  pull_requests_entries (field :: additional) = pull_requests_entries additional.
Proof.
  intros Hf. unfold pull_requests_entries. cbn [List.filter].
  by destruct (String.eqb_spec "pull-requests" field) as [<-|_].
Qed.

Lemma fetches_search q t : fetches (EvSearch q :: t) = EvSearch q :: fetches t.
Proof. reflexivity. Qed.

Lemma fetches_log msg t : fetches (EvLog msg :: t) = fetches t.
Proof. reflexivity. Qed.

(** The loop over the additional fields: it makes at most two searches
    per pull-request entry, keeps the two counts paired, and changes no
    other key. *)
Lemma run_additionalLoop_counts owner repo additional : forall fields k w,
  counts_paired fields ->
  exists t fields' w1,
    run (additionalLoop owner repo additional fields k) w
    = (t ++ (run (k fields') w1).1, (run (k fields') w1).2) /\
    Forall (fun e => is_search_or_log e = true) t /\
    (length (fetches t) <= 2 * pull_requests_entries additional)%nat /\
    counts_paired fields'.
Proof.
  induction additional as [|field additional IH]; intros fields k w Hp.
  - exists [], fields, w. simpl. split; [by destruct (Github.run _ _ _ _ _)|].
    split; [constructor|]. split; [simpl; lia | done].
  - destruct (decide (field = "pull-requests")) as [->|Hf].
    + rewrite run_pull_requests, entries_cons_pull_requests.
      destruct (api_Search w _) as [[opened|] w1].
      * destruct (api_Search w1 _) as [[closed|] w2].
        -- destruct (IH (<["closed_pull_requests" := Int closed]>
                           (<["open_pull_requests" := Int opened]> ∅) ∪ fields) k w2)
             as (t & fields' & w3 & Hrun & Ht & Hn & Hp').
           { unfold counts_paired. split; intros _.
             - exists (Int closed). apply lookup_union_Some_l. by simplify_map_eq.
             - exists (Int opened). apply lookup_union_Some_l. by simplify_map_eq. }
           rewrite Hrun. cbn [fst snd].
           eexists (_ :: _ :: t), fields', w3. split; [reflexivity|].
           split; [by repeat constructor|]. split; [|done].
           rewrite !fetches_search. cbn [length]. lia.
        -- destruct (IH fields k w2 Hp) as (t & fields' & w3 & Hrun & Ht & Hn & Hp').
           rewrite Hrun. cbn [fst snd].
           eexists (_ :: _ :: _ :: _ :: t), fields', w3. split; [reflexivity|].
           split; [by repeat constructor|]. split; [|done].
           rewrite !fetches_search, !fetches_log. cbn [length]. lia.
      * destruct (IH fields k w1 Hp) as (t & fields' & w3 & Hrun & Ht & Hn & Hp').
        rewrite Hrun. cbn [fst snd].
        eexists (_ :: _ :: _ :: t), fields', w3. split; [reflexivity|].
        split; [by repeat constructor|]. split; [|done].
        rewrite !fetches_search, !fetches_log. cbn [length]. lia.
    + cbn [additionalLoop]. rewrite decide_False by done. rewrite run_Log.
      destruct (IH fields k w Hp) as (t & fields' & w3 & Hrun & Ht & Hn & Hp').
      rewrite Hrun. cbn [fst snd].
      exists (EvLog "E! unknown additional field" :: t), fields', w3.
      split; [reflexivity|]. split; [by constructor|]. split; [|done].
      by rewrite fetches_log, entries_cons_other.
Qed.

Lemma getFields_unpaired info : counts_paired (getFields info).
Proof. unfold counts_paired. split; intros [x Hx]; vm_compute in Hx; discriminate. Qed.

(** The run of the goroutine of an entity whose record is fetched. *)
Lemma run_repoTask_shape i name owner repo w info w1 :
  splitRepositoryName name = (owner, repo, None) ->
  api_Get w owner repo = (Some info, w1) ->
  exists t fields w2,
    run (repoTask i name) w
    = (EvGet owner repo :: t ++ [EvPush inputName fields (getTags info)], w2) /\
    Forall (fun e => is_search_or_log e = true) t /\
    (length (fetches t) <= 2 * pull_requests_entries (AdditionalFields i))%nat /\
    counts_paired fields.
Proof.
  intros Hsplit Hget. unfold repoTask. rewrite Hsplit.
  rewrite run_Repositories_Get, Hget. cbn [fst snd].
  edestruct (run_additionalLoop_counts owner repo (AdditionalFields i)
               (getFields info)) as (t & fields & w2 & Hrun & Ht & Hn & Hp);
    [apply getFields_unpaired|].
  rewrite Hrun, run_PushSamples. simpl.
  by exists t, fields, w2.
Qed.

Lemma run_repoTask_not_fetched i name owner repo w w1 :
  splitRepositoryName name = (owner, repo, None) ->
  api_Get w owner repo = (None, w1) ->
  run (repoTask i name) w = ([EvGet owner repo; EvLog "E! get repositoryInfo err"], w1).
Proof.
  intros Hsplit Hget. unfold repoTask. rewrite Hsplit.
  by rewrite run_Repositories_Get, Hget.
Qed.

Lemma run_repoTask_not_parsed i name owner repo e w :
  splitRepositoryName name = (owner, repo, Some e) ->
  run (repoTask i name) w = ([EvLog "E! splitRepositoryName"], w).
Proof. intros Hsplit. unfold repoTask. by rewrite Hsplit. Qed.

(** X12: an entity contributes one push when its identifier parses and
    its record is fetched, and nothing otherwise.  When the fetch of the
    record fails the goroutine logs the error and ends: no search is
    made for that entity. *)
Theorem entity_pushes_once_or_never i name w :
  match splitRepositoryName name with
  | (owner, repo, None) =>
      match api_Get w owner repo with
      | (Some info, _) =>
          exists fields,
            pushed (run (repoTask i name) w).1
            = [EvPush inputName fields (getTags info)]
      | (None, w1) =>
          run (repoTask i name) w
          = ([EvGet owner repo; EvLog "E! get repositoryInfo err"], w1)
      end
  | (_, _, Some _) =>
      run (repoTask i name) w = ([EvLog "E! splitRepositoryName"], w)
  end.
Proof.
  destruct (splitRepositoryName name) as [[owner repo] [e|]] eqn:Hsplit.
  - by apply (run_repoTask_not_parsed i name owner repo e).
  - destruct (api_Get w owner repo) as [[info|] w1] eqn:Hget.
    + destruct (run_repoTask_shape i name owner repo w info w1 Hsplit Hget)
        as (t & fields & w2 & -> & Ht & _ & _).
      exists fields. cbn [fst].
      change (EvGet owner repo :: t ++ [EvPush inputName fields (getTags info)])
        with ([EvGet owner repo] ++ t ++ [EvPush inputName fields (getTags info)]).
      rewrite !pushed_app, (pushed_search_or_log t Ht). reflexivity.
    + by apply run_repoTask_not_fetched.
Qed.

(** X13: without a "pull-requests" entry among the additional fields no
    search is made: each entry is logged as unknown, and the push carries
    exactly the primary fields. *)
Theorem unknown_additional_fields_are_logged i name owner repo w info w1 :
  "pull-requests" ∉ AdditionalFields i ->
  splitRepositoryName name = (owner, repo, None) ->
  api_Get w owner repo = (Some info, w1) ->
  run (repoTask i name) w
  = (EvGet owner repo ::
     map (fun _ => EvLog "E! unknown additional field") (AdditionalFields i) ++
     [EvPush inputName (getFields info) (getTags info)], w1).
Proof.
  intros Hnot Hsplit Hget. unfold repoTask. rewrite Hsplit.
  rewrite run_Repositories_Get, Hget. cbn [fst snd].
  assert (forall additional fields k w',
            "pull-requests" ∉ additional ->
            run (additionalLoop owner repo additional fields k) w'
            = (map (fun _ => EvLog "E! unknown additional field") additional
               ++ (run (k fields) w').1, (run (k fields) w').2)) as Hloop.
  { induction additional as [|field additional IH]; intros fields k w' Hn.
    - simpl. by destruct (Github.run _ _ _ _ _).
    - cbn [additionalLoop]. rewrite decide_False.
      + rewrite run_Log, IH; [done|]. intros Hin. apply Hn. by right.
      + intros ->. apply Hn. by left. }
  rewrite Hloop by done. by rewrite run_PushSamples.
Qed.

(** X14: a push never carries one pull-request count without the other:
    the count of the open class that was fetched before a failed search
    of the closed class is not pushed. *)
Theorem pull_request_counts_are_paired i name w prefix fields tags :
  In (EvPush prefix fields tags) (run (repoTask i name) w).1 ->
  counts_paired fields.
Proof.
  intros Hin.
  destruct (splitRepositoryName name) as [[owner repo] [e|]] eqn:Hsplit.
  - rewrite (run_repoTask_not_parsed i name owner repo e w Hsplit) in Hin.
    destruct Hin as [?|[]]; discriminate.
  - destruct (api_Get w owner repo) as [[info|] w1] eqn:Hget.
    + destruct (run_repoTask_shape i name owner repo w info w1 Hsplit Hget)
        as (t & fields' & w2 & Hrun & Ht & _ & Hp).
      rewrite Hrun in Hin. cbn [fst] in Hin.
      destruct Hin as [?|Hin]; [discriminate|].
      apply in_app_or in Hin as [Hin|[Heq|[]]].
      * rewrite Forall_forall in Ht. apply list_elem_of_In, Ht in Hin. discriminate.
      * by injection Heq as _ <- _.
    + rewrite (run_repoTask_not_fetched i name owner repo w w1 Hsplit Hget) in Hin.
      destruct Hin as [?|[?|[]]]; discriminate.
Qed.

(** X15: the goroutine of an entity makes at most one request for the
    record and two searches for each "pull-requests" entry among the
    additional fields. *)
Theorem requests_per_entity_bounded i name w :
  (length (fetches (run (repoTask i name) w).1)
   <= 1 + 2 * pull_requests_entries (AdditionalFields i))%nat.
Proof.
  destruct (splitRepositoryName name) as [[owner repo] [e|]] eqn:Hsplit.
  - rewrite (run_repoTask_not_parsed i name owner repo e w Hsplit). simpl. lia.
  - destruct (api_Get w owner repo) as [[info|] w1] eqn:Hget.
    + destruct (run_repoTask_shape i name owner repo w info w1 Hsplit Hget)
        as (t & fields' & w2 & -> & _ & Hn & _).
      cbn [fst].
      change (EvGet owner repo :: t ++ [EvPush inputName fields' (getTags info)])
        with ([EvGet owner repo] ++ t ++ [EvPush inputName fields' (getTags info)]).
      rewrite !fetches_app, !length_app. simpl. lia.
    + rewrite (run_repoTask_not_fetched i name owner repo w w1 Hsplit Hget). simpl. lia.
Qed.

(** *** Invariants of the machine *)

Lemma running_app gs gs' : running (gs ++ gs') = (running gs + running gs')%nat.
Proof. unfold running. by rewrite List.filter_app, length_app. Qed.

Lemma running_insert gs : forall n p g,
  gs !! n = Some (Running p) ->
  running (<[n := g]> gs)
  = (if is_running g then running gs else running gs - 1)%nat /\
  (1 <= running gs)%nat.
Proof.
  induction gs as [|g0 gs IH]; intros n p g Hn; [done|].
  destruct n as [|n]; simpl in Hn.
  - injection Hn as ->. unfold running. simpl. destruct g; simpl; lia.
  - destruct (IH n p g Hn) as [Heq Hle]. unfold running in *. simpl.
    destruct g0; simpl; destruct g; simpl in *; lia.
Qed.

Lemma main_step_counts s s' :
  main_step World NewEnterpriseClient s = Some s' ->
  wg World s = Z.of_nat (running (goroutines World s) + pending (main World s)) ->
  wg World s' = Z.of_nat (running (goroutines World s') + pending (main World s')).
Proof.
  unfold main_step. intros Hs Hinv.
  destruct (main World s) as [|[|repository rest]| |] eqn:Hm; try discriminate.
  - destruct (githubClient (ins World s)) as [c|].
    + injection Hs as <-. cbn [wg goroutines main pending]. simpl in Hinv. lia.
    + destruct (createGitHubClient NewEnterpriseClient (ins World s))
        as [[i' [c|]]|]; injection Hs as <-;
        cbn [wg goroutines main pending Repositories set_githubClient];
        simpl in Hinv; lia.
  - injection Hs as <-. cbn [wg goroutines main pending]. simpl in Hinv. lia.
  - injection Hs as <-. cbn [wg goroutines main pending].
    rewrite running_app. unfold running at 2. simpl. simpl in Hinv. lia.
Qed.

Lemma goroutine_step_counts n s s' :
  goroutine_step World api_Get api_Search n s = Some s' ->
  wg World s = Z.of_nat (running (goroutines World s) + pending (main World s)) ->
  wg World s' = Z.of_nat (running (goroutines World s') + pending (main World s')).
Proof.
  unfold goroutine_step. intros Hs Hinv.
  destruct (goroutines World s !! n) as [[p|]|] eqn:Hn; try discriminate.
  destruct (act World api_Get api_Search p (world World s)) as [[[e p'] w']|];
    injection Hs as <-; cbn [wg goroutines main].
  - destruct (running_insert _ n p (Running p') Hn) as [-> _]. exact Hinv.
  - destruct (running_insert _ n p Exited Hn) as [-> Hle]. simpl. lia.
Qed.

Lemma rtc_invariant (P : State World -> Prop) :
  (forall x y, P x -> step x y -> P y) ->
  forall x y, rtc step x y -> P x -> P y.
Proof. intros Hstep x y Hrtc. induction Hrtc; eauto. Qed.

(** X16: in every state that [Gather] and its goroutines can reach, the
    counter of the wait group is the number of repositories whose work
    is not finished: the goroutines that run plus the repositories for
    which none was started yet.  So the deferred calls of [wg.Done]
    never take the counter below zero, and the counter is zero exactly
    when no goroutine runs and none is left to start. *)
Theorem wg_counts_unfinished_work i w s :
  rtc step (init World i w) s ->
  wg World s = Z.of_nat (running (goroutines World s) + pending (main World s)) /\
  0 <= wg World s /\
  (wg World s = 0 <->
   running (goroutines World s) = 0%nat /\ pending (main World s) = 0%nat).
Proof.
  intros Hrtc.
  assert (wg World s
          = Z.of_nat (running (goroutines World s) + pending (main World s))) as Hinv.
  { apply (rtc_invariant
             (fun s => wg World s
                       = Z.of_nat (running (goroutines World s) + pending (main World s)))
             ) with (x := init World i w); [|exact Hrtc|reflexivity].
    intros x y Hx [Hmain|[n Hgo]].
    - by apply (main_step_counts x y).
    - by apply (goroutine_step_counts n x y). }
  split; [exact Hinv|]. split; lia.
Qed.

(** X17: when the client is missing and its creation panics or returns
    an error, [Gather] starts no goroutine: in every state that can be
    reached no request was made, no sample was pushed, the remote API is
    untouched and the wait group is at zero. *)
Theorem no_client_no_goroutine i w s :
  githubClient i = None ->
  (forall i' c, createGitHubClient NewEnterpriseClient i <> Done (i', Some c)) ->
  rtc step (init World i w) s ->
  goroutines World s = [] /\ world World s = w /\ wg World s = 0 /\
  fetches (events World s) = [] /\ pushed (events World s) = [] /\
  (main World s = MEntry \/ main World s = MReturned \/ main World s = MPanicked).
Proof.
  intros Hnil Hfail Hrtc.
  assert (forall s0 s1 : State World,
            (goroutines World s0 = [] /\ world World s0 = w /\ wg World s0 = 0 /\
             fetches (events World s0) = [] /\ pushed (events World s0) = [] /\
             ((main World s0 = MEntry /\ ins World s0 = i) \/
              main World s0 = MReturned \/ main World s0 = MPanicked)) ->
            step s0 s1 ->
            goroutines World s1 = [] /\ world World s1 = w /\ wg World s1 = 0 /\
            fetches (events World s1) = [] /\ pushed (events World s1) = [] /\
            ((main World s1 = MEntry /\ ins World s1 = i) \/
             main World s1 = MReturned \/ main World s1 = MPanicked)) as Hstep.
  { intros s0 s1 (Hg & Hw & Hwg & Hf & Hp & Hm) [Hmain|[n Hgo]].
    - unfold main_step in Hmain. destruct Hm as [[Hm Hi]|[Hm|Hm]]; rewrite Hm in Hmain;
        [|discriminate..].
      rewrite Hi, Hnil in Hmain.
      destruct (createGitHubClient NewEnterpriseClient i) as [[i' [c|]]|] eqn:Hc.
      + by destruct (Hfail i' c).
      + injection Hmain as <-. cbn [goroutines world wg events main].
        rewrite fetches_app, pushed_app, Hf, Hp. by eauto 10.
      + injection Hmain as <-. cbn [goroutines world wg events main]. by eauto 10.
    - unfold goroutine_step in Hgo. rewrite Hg in Hgo. by destruct n. }
  assert (goroutines World s = [] /\ world World s = w /\ wg World s = 0 /\
          fetches (events World s) = [] /\ pushed (events World s) = [] /\
          ((main World s = MEntry /\ ins World s = i) \/
           main World s = MReturned \/ main World s = MPanicked)) as Hinv.
  { apply (rtc_invariant _ Hstep (init World i w) s Hrtc). repeat split; auto. }
  destruct Hinv as (Hg & Hw & Hwg & Hf & Hp & Hm).
  repeat (split; [done|]). destruct Hm as [[? _]|[?|?]]; auto.
Qed.

(** X18: the tags of an entity always have the four keys owner, name,
    language and license, and the license tag is never empty: it is the
    name of the license, or "None" for a repository without one. *)
Theorem getTags_license_never_empty info :
  dom (getTags info) = {[ "owner"; "name"; "language"; "license" ]} /\
  getTags info !! "license" = Some (getLicense info) /\
  getLicense info <> "" /\
  (GetLicense_GetName info <> "" -> getLicense info = GetLicense_GetName info) /\
  (GetLicense_GetName info = "" -> getLicense info = "None").
Proof.
  split; [unfold getTags; rewrite !dom_insert_L, dom_empty_L; set_solver|].
  split; [reflexivity|].
  unfold getLicense. destruct (decide (GetLicense_GetName info <> "")) as [Hl|Hl].
  - split; [done|]. split; [done|]. intros Heq. by destruct Hl.
  - split; [discriminate|]. split; [intros Hne; by destruct Hl | done].
Qed.

End GithubMore.

Section GithubRuns.

Import Github GithubObs.

Variable World : Type.
Variable api_Get : World -> string -> string -> option Repository * World.
Variable api_Search : World -> string -> option Z * World.
Variable NewEnterpriseClient : string -> http_Client -> option Client.

Local Abbreviation run := (Github.run World api_Get api_Search).
Local Abbreviation step := (Github.step World api_Get api_Search NewEnterpriseClient).
Local Abbreviation run_in_turn := (GithubObs.run_in_turn World api_Get api_Search).

(** The creation of the client changes the obfuscated token only. *)
Lemma createGitHubClient_keeps_configuration i i' r :
  createGitHubClient NewEnterpriseClient i = Done (i', r) ->
  Repositories i' = Repositories i /\ AccessToken i' = AccessToken i /\
  AdditionalFields i' = AdditionalFields i /\
  EnterpriseBaseURL i' = EnterpriseBaseURL i /\
  ResponseTimeout i' = ResponseTimeout i /\ githubClient i' = githubClient i.
Proof.
  unfold createGitHubClient. cbn [AccessToken set_obfuscatedToken].
  destruct (decide (AccessToken i <> "")) as [Hne|Hne].
  - destruct (slice (AccessToken i) 0 4) as [head|]; [|discriminate]. simpl.
    destruct (slice (AccessToken i) _ _) as [tail|]; [|discriminate]. simpl.
    by intros [= <- _].
  - by intros [= <- _].
Qed.

(** X19: [Gather] and its goroutines never change the configured
    repositories, token, additional fields, base URL or timeout; an
    instance that has its client is not changed at all; and whenever a
    goroutine exists or the caller is in its loop the client is in place,
    so no goroutine ever finds a nil client. *)
Theorem goroutines_only_with_client i w s :
  rtc step (init World i w) s ->
  Repositories (ins World s) = Repositories i /\
  AccessToken (ins World s) = AccessToken i /\
  AdditionalFields (ins World s) = AdditionalFields i /\
  EnterpriseBaseURL (ins World s) = EnterpriseBaseURL i /\
  ResponseTimeout (ins World s) = ResponseTimeout i /\
  (forall c, githubClient i = Some c -> ins World s = i) /\
  (goroutines World s <> [] \/ (exists rest, main World s = MLoop rest) ->
   is_Some (githubClient (ins World s))).
Proof.
  intros Hrtc.
  pose (P := fun s : State World =>
    (Repositories (ins World s) = Repositories i /\
     AccessToken (ins World s) = AccessToken i /\
     AdditionalFields (ins World s) = AdditionalFields i /\
     EnterpriseBaseURL (ins World s) = EnterpriseBaseURL i /\
     ResponseTimeout (ins World s) = ResponseTimeout i /\
     (forall c, githubClient i = Some c -> ins World s = i) /\
     (goroutines World s <> [] \/ (exists rest, main World s = MLoop rest) ->
      is_Some (githubClient (ins World s)))) /\
    (main World s = MEntry -> ins World s = i /\ goroutines World s = [])).
  assert (P s) as [HP _]; [|exact HP].
  apply (rtc_invariant World api_Get api_Search NewEnterpriseClient P)
    with (x := init World i w); [|exact Hrtc|].
  - intros x y [(HR & HA & HF & HE & HT & Hsame & Hclient) Hentry] [Hmain|[n Hgo]].
    + unfold main_step in Hmain.
      destruct (main World x) as [|[|repository rest]| |] eqn:Hm; try discriminate.
      * destruct (Hentry eq_refl) as [Hi Hg]. rewrite Hi in Hmain.
        destruct (githubClient i) as [c|] eqn:Hc.
        -- injection Hmain as <-. unfold P. cbn [ins main goroutines].
           split; [|done]. rewrite ?Hi. repeat (split; [done|]).
           intros _. rewrite Hc. eauto.
        -- destruct (createGitHubClient NewEnterpriseClient i) as [[i' [c|]]|] eqn:Hcr.
           ++ destruct (createGitHubClient_keeps_configuration i i' _ Hcr)
                as (? & ? & ? & ? & ? & ?).
              injection Hmain as <-. unfold P. cbn [ins main goroutines].
              split; [|done]. cbn [Repositories AccessToken AdditionalFields
                                  EnterpriseBaseURL ResponseTimeout githubClient
                                  set_githubClient].
              repeat (split; [done|]). eauto.
           ++ destruct (createGitHubClient_keeps_configuration i i' _ Hcr)
                as (? & ? & ? & ? & ? & ?).
              injection Hmain as <-. unfold P. cbn [ins main goroutines].
              split; [|done]. repeat (split; [done|]).
              rewrite Hg. intros [?|[? ?]]; done.
           ++ injection Hmain as <-. unfold P. cbn [ins main goroutines].
              split; [|done]. rewrite ?Hi. repeat (split; [done|]).
              rewrite Hg. intros [?|[? ?]]; done.
      * injection Hmain as <-. unfold P. cbn [ins main goroutines].
        split; [|done]. repeat (split; [done|]). intros _. apply Hclient. eauto.
      * injection Hmain as <-. unfold P. cbn [ins main goroutines].
        split; [|done]. repeat (split; [done|]). intros _. apply Hclient. eauto.
    + destruct (goroutine_step_frame World api_Get api_Search n x y Hgo)
        as (Hm & Hi & _).
      unfold goroutine_step in Hgo.
      destruct (goroutines World x !! n) as [g|] eqn:Hn; [|discriminate].
      assert (goroutines World x <> []) as Hne by (intros Heq; by rewrite Heq in Hn).
      unfold P. rewrite Hm, Hi. split.
      * repeat (split; [done|]). intros _. apply Hclient. by left.
      * intros He. by destruct (Hentry He).
  - unfold P. cbn [init ins main goroutines]. split; [|done].
    repeat (split; [done|]). intros [?|[? ?]]; done.
Qed.

Lemma run_in_turn_cons i repository rest w :
  run_in_turn i (repository :: rest) w
  = ((run (repoTask i repository) w).1
     ++ (run_in_turn i rest (run (repoTask i repository) w).2).1,
     (run_in_turn i rest (run (repoTask i repository) w).2).2).
Proof.
  cbn [GithubObs.run_in_turn]. destruct (Github.run _ _ _ _ w) as [t w1].
  cbn [fst snd]. by destruct (GithubObs.run_in_turn _ _ _ i rest w1).
Qed.

(** The goroutines that have not started yet can run one after the
    other, each to its end. *)
Lemma goroutines_run_in_turn i todo : forall (s : State World) pre,
  goroutines World s = pre ++ map (fun r => Running (repoTask i r)) todo ->
  rtc step s
    {| ins := ins World s; main := main World s;
       wg := wg World s - Z.of_nat (length todo);
       goroutines := pre ++ map (fun _ => Exited) todo;
       world := (run_in_turn i todo (world World s)).2;
       events := events World s ++ (run_in_turn i todo (world World s)).1 |}.
Proof.
  induction todo as [|r todo IH]; intros s pre Hg.
  - destruct s as [si sm swg sg sw se]. simpl in *. subst sg.
    rewrite !app_nil_r, Z.sub_0_r. reflexivity.
  - etrans.
    { apply (goroutine_runs World api_Get api_Search NewEnterpriseClient
               (repoTask i r) s (length pre)).
      rewrite Hg. by apply list_lookup_middle. }
    etrans.
    { apply (IH _ (pre ++ [Exited])). cbn [goroutines]. rewrite Hg.
      rewrite insert_app_r_alt by lia. rewrite Nat.sub_diag. simpl.
      by rewrite <- app_assoc. }
    cbn [ins main wg goroutines world events].
    rewrite run_in_turn_cons. cbn [fst snd map length].
    rewrite <- !app_assoc. cbn [app].
    replace (wg World s - 1 - Z.of_nat (length todo))
      with (wg World s - Z.of_nat (S (length todo))) by lia.
    reflexivity.
Qed.

(** X20: there is a schedule in which the work of every entity
    completes: the caller starts all goroutines and returns, then the
    goroutines run one after the other.  All have then exited, the wait
    group is back at zero, and the events are the runs of the entities in
    the order of the configuration, so an entity that fails takes
    nothing from the runs of the others. *)
Theorem every_entity_can_finish i w c :
  githubClient i = Some c ->
  rtc step (init World i w)
    {| ins := i; main := MReturned; wg := 0;
       goroutines := map (fun _ => Exited) (Repositories i);
       world := (run_in_turn i (Repositories i) w).2;
       events := (run_in_turn i (Repositories i) w).1 |}.
Proof.
  intros Hc. etrans; [by apply (Gather_returns _ _ _ _ i w c)|].
  etrans; [apply (goroutines_run_in_turn i (Repositories i) _ []); reflexivity|].
  cbn [ins main wg goroutines world events app].
  rewrite Z.sub_diag. reflexivity.
Qed.

End GithubRuns.

(** ** The further properties on concrete inputs *)

Section MoreExamples.

Import Mtail MtailObs Fixtures MoreFixtures.

(** A gauge family with one NaN and a summary family, gathered into a
    sink that holds a sample: the old sample stays in front. *)
Lemma Gather_only_adds_witness :
  exists h' out,
    Gather sprint mtail_ins (Some snapshot) (heap0, old_sink) = Done (h', out) /\
    (exists new, emitted out = emitted old_sink ++ new) /\
    deref_nilable h' (Labels mtail_ins) = labels.
Proof.
  destruct (Gather sprint mtail_ins (Some snapshot) (heap0, old_sink))
    as [[h' out]|] eqn:E; [|vm_compute in E; discriminate].
  exists h', out. split; [reflexivity|].
  destruct (Gather_only_adds sprint mtail_ins (Some snapshot) heap0 h' old_sink out E)
    as (Hnew & _ & Hlabels).
  split; [exact Hnew|]. apply Hlabels.
  intros l Hl. injection Hl as <-. exists labels. reflexivity.
Defined.

Lemma Gather_in_snapshot_order_witness :
  exists h' out,
    Gather sprint mtail_ins (Some snapshot) (heap0, old_sink) = Done (h', out) /\
    map Metric (emitted out)
    = ["old"; "mtail_up"; "mtail_rpc_duration_count"; "mtail_rpc_duration_sum";
       "mtail_rpc_duration"].
Proof.
  destruct (Gather sprint mtail_ins (Some snapshot) (heap0, old_sink))
    as [[h' out]|] eqn:E; [|vm_compute in E; discriminate].
  exists h', out. split; [reflexivity|].
  assert (labels_allocated mtail_ins heap0) as Hwf.
  { intros l Hl. injection Hl as <-. exists labels. reflexivity. }
  rewrite (Gather_in_snapshot_order sprint mtail_ins snapshot heap0 h' old_sink out Hwf E).
  vm_compute. reflexivity.
Defined.

End MoreExamples.

Section InitExamples.

Import MtailInit InitFixtures.

Lemma Init_first_makes_one_context_witness :
  exists c err ins' w',
    MtailInit.Init unit "v0.3" GetRegistry (fresh_instance "progs" ["app.log"]) ∅
    = Done (err, ins', w') /\
    ctx unit ins' = Some c /\ cancel unit ins' = Some c /\
    (err = None -> w' !! c = Some false).
Proof.
  destruct (Init_first_makes_one_context unit "v0.3" GetRegistry
              (fresh_instance "progs" ["app.log"]) ∅)
    as (c & err & ins' & w' & _ & HI & Hctx & Hcancel & _ & Hok & _).
  - intros [H|H]; vm_compute in H; discriminate.
  - reflexivity.
  - exists c, err, ins', w'. split; [exact HI|]. split; [exact Hctx|].
    split; [exact Hcancel|]. intros Hnone. by destruct (Hok Hnone).
Defined.

(** A second [Init] cancels the live context of the instance; the
    registry source of the fixtures then refuses it. *)
Lemma Init_again_cancels_its_context_witness :
  exists err ins',
    MtailInit.Init unit "v0.3" GetRegistry initialised_instance one_live_context
    = Done (err, ins', <[1%positive := true]> one_live_context) /\
    err = Some (RegistryError "context canceled").
Proof.
  destruct (Init_again_cancels_its_context unit "v0.3" GetRegistry
              initialised_instance one_live_context 1%positive)
    as (err & ins' & HI & _ & _ & Hm).
  - intros [H|H]; vm_compute in H; discriminate.
  - reflexivity.
  - exists err, ins'. split; [exact HI|]. vm_compute in Hm. by destruct Hm.
Defined.

End InitExamples.

Section GithubMoreExamples.

Import Github GithubObs Fixtures.

Lemma split_of_join_witness :
  splitRepositoryName ("octocat" +:+ "/" +:+ "Hello-World/docs")
  = ("octocat", "Hello-World/docs", None).
Proof. apply (split_of_join "octocat" "Hello-World/docs"). reflexivity. Defined.

Lemma unknown_additional_fields_are_logged_witness :
  Github.run nat api_Get api_Search
    (repoTask (github_ins ["octocat/Hello-World"] ["issues"; "stars"])
       "octocat/Hello-World") 0%nat
  = (EvGet "octocat" "Hello-World" ::
     map (fun _ => EvLog "E! unknown additional field") ["issues"; "stars"] ++
     [EvPush inputName (getFields hello_world) (getTags hello_world)], 0%nat).
Proof.
  apply (unknown_additional_fields_are_logged nat api_Get api_Search
           (github_ins ["octocat/Hello-World"] ["issues"; "stars"])
           "octocat/Hello-World" "octocat" "Hello-World" 0%nat hello_world 0%nat).
  - intros Hin. apply list_elem_of_In in Hin. simpl in Hin.
    destruct Hin as [H|[H|[]]]; discriminate.
  - reflexivity.
  - reflexivity.
Defined.

(** The push that follows a failed and then a successful pull-request
    entry carries both counts. *)
Lemma pull_request_counts_are_paired_witness :
  counts_paired
    (<["closed_pull_requests" := Int 7]>
       (<["open_pull_requests" := Int 7]> (getFields hello_world))).
Proof.
  apply (pull_request_counts_are_paired nat api_Get api_Search
           (github_ins ["octocat/Hello-World"] ["pull-requests"; "pull-requests"])
           "octocat/Hello-World" 0%nat "jenkins" _ (getTags hello_world)).
  vm_compute. do 6 right. left. reflexivity.
Defined.

Lemma wg_counts_unfinished_work_witness :
  exists s,
    rtc (Github.step nat api_Get api_Search NewEnterpriseClient)
      (init nat (github_ins ["octocat/Hello-World"; "badid"] []) 0%nat) s /\
    main nat s = MReturned /\
    wg nat s = Z.of_nat (running (goroutines nat s) + pending (main nat s)) /\
    wg nat s = 2.
Proof.
  eexists. split; [|split; [|split]].
  - apply (Gather_returns nat api_Get api_Search NewEnterpriseClient
             (github_ins ["octocat/Hello-World"; "badid"] []) 0%nat client eq_refl).
  - reflexivity.
  - apply (wg_counts_unfinished_work nat api_Get api_Search NewEnterpriseClient
             (github_ins ["octocat/Hello-World"; "badid"] []) 0%nat).
    apply (Gather_returns nat api_Get api_Search NewEnterpriseClient
             (github_ins ["octocat/Hello-World"; "badid"] []) 0%nat client eq_refl).
  - reflexivity.
Defined.

(** With the token "abc" the creation of the client panics, and nothing
    is ever started. *)
Lemma no_client_no_goroutine_witness :
  rtc (Github.step nat api_Get api_Search NewEnterpriseClient)
    (init nat (token_ins "abc") 0%nat)
    {| ins := token_ins "abc"; main := MPanicked; wg := 0; goroutines := [];
       world := 0%nat; events := [] |} /\
  goroutines nat
    {| ins := token_ins "abc"; main := MPanicked; wg := 0; goroutines := [];
       world := 0%nat; events := [] |} = [] /\
  fetches (events nat
    {| ins := token_ins "abc"; main := MPanicked; wg := 0; goroutines := [];
       world := 0%nat; events := [] |}) = [].
Proof.
  assert (rtc (Github.step nat api_Get api_Search NewEnterpriseClient)
            (init nat (token_ins "abc") 0%nat)
            {| ins := token_ins "abc"; main := MPanicked; wg := 0; goroutines := [];
               world := 0%nat; events := [] |}) as Hrtc.
  { apply rtc_once. left. reflexivity. }
  split; [exact Hrtc|].
  destruct (no_client_no_goroutine nat api_Get api_Search NewEnterpriseClient
              (token_ins "abc") 0%nat _ eq_refl
              ltac:(intros i' c; vm_compute; discriminate) Hrtc)
    as (Hg & _ & _ & Hf & _).
  split; [exact Hg | exact Hf].
Defined.

(** On the first call with the token "ghp_0123456789" the client is
    created before the loop is entered, and the token is as configured. *)
Lemma goroutines_only_with_client_witness :
  exists s,
    rtc (Github.step nat api_Get api_Search NewEnterpriseClient)
      (init nat (token_ins "ghp_0123456789") 0%nat) s /\
    AccessToken (ins nat s) = "ghp_0123456789" /\
    is_Some (githubClient (ins nat s)).
Proof.
  destruct (main_step nat NewEnterpriseClient (init nat (token_ins "ghp_0123456789") 0%nat))
    as [s|] eqn:E; [|vm_compute in E; discriminate].
  exists s.
  assert (rtc (Github.step nat api_Get api_Search NewEnterpriseClient)
            (init nat (token_ins "ghp_0123456789") 0%nat) s) as Hrtc.
  { apply rtc_once. left. exact E. }
  split; [exact Hrtc|].
  destruct (goroutines_only_with_client nat api_Get api_Search NewEnterpriseClient
              (token_ins "ghp_0123456789") 0%nat s Hrtc)
    as (_ & Htoken & _ & _ & _ & _ & Hclient).
  split; [exact Htoken|]. apply Hclient. right.
  vm_compute in E. injection E as <-. eexists. reflexivity.
Defined.

(** The malformed identifier that comes first takes nothing from the
    entity that follows it. *)
Lemma every_entity_can_finish_witness :
  exists s,
    rtc (Github.step nat api_Get api_Search NewEnterpriseClient)
      (init nat (github_ins ["badid"; "octocat/Hello-World"] []) 0%nat) s /\
    main nat s = MReturned /\ wg nat s = 0 /\
    goroutines nat s = [Exited; Exited] /\
    events nat s
    = [EvLog "E! splitRepositoryName"; EvGet "octocat" "Hello-World";
       EvPush "jenkins" (getFields hello_world) (getTags hello_world)].
Proof.
  eexists. split.
  - apply (every_entity_can_finish nat api_Get api_Search NewEnterpriseClient
             (github_ins ["badid"; "octocat/Hello-World"] []) 0%nat client eq_refl).
  - do 3 (split; [reflexivity|]). vm_compute. reflexivity.
Defined.

End GithubMoreExamples.
